(** * dtz-toolkit: session tracker, interaction counter and sandboxed tool viewer

    A shallow embedding of the analytics module ([AnalyticsTracker]), of the
    Firebase utilities ([FirebaseUtils]) and of the tool viewer ([ToolViewer]),
    with the properties of the design document stated against them. *)

From stdpp Require Import base numbers list strings gmap.
From Stdlib Require Import ZArith Lia Ascii String List.
Import ListNotations.

Local Open Scope Z_scope.

(** ** JavaScript strings and numbers

    A JavaScript string is a sequence of UTF-16 code units; [charCodeAt]
    reads one of them.  Literals of the source are ASCII and are written
    with [lit]. *)

Module JS.

Definition jsstring := list Z.

Definition lit (s : string) : jsstring :=
  List.map (fun a => Z.of_N (N_of_ascii a)) (list_ascii_of_string s).

Global Arguments lit : simpl never.

(** Digit of [Number.prototype.toString(radix)]: [0-9] then [a-z]. *)
Definition digitChar (d : Z) : Z :=
  if d <? 10 then 48 + d else 87 + d.

Fixpoint digitsRadix (radix : Z) (fuel : nat) (n : Z) (acc : jsstring) : jsstring :=
  match fuel with
  | O => acc
  | S f =>
      let acc' := digitChar (n mod radix) :: acc in
      if n / radix =? 0 then acc' else digitsRadix radix f (n / radix) acc'
  end.

(** [n.toString(radix)] for an integer [n]; the sign is printed first. *)
Definition toStringRadix (radix : Z) (n : Z) : jsstring :=
  if n <? 0
  then 45 :: digitsRadix radix (S (Z.to_nat (Z.log2 (- n)))) (- n) []
  else digitsRadix radix (S (Z.to_nat (Z.log2 n))) n [].

Definition toString10 : Z -> jsstring := toStringRadix 10.
Definition toString36 : Z -> jsstring := toStringRadix 36.

(** Reading a base-36 numeral back ([parseInt(s, 36)] on digits). *)
Definition digitVal (c : Z) : Z :=
  if c <? 58 then c - 48 else c - 87.

Definition parseRadix (radix : Z) (s : jsstring) : Z :=
  fold_left (fun v c => v * radix + digitVal c) s 0.

Definition isDigit36 (c : Z) : bool :=
  ((48 <=? c) && (c <=? 57)) || ((97 <=? c) && (c <=? 122)).

(** [ToInt32]: the value modulo 2^32, read as a signed 32-bit integer. *)
Definition toInt32 (x : Z) : Z :=
  (x + 2 ^ 31) mod 2 ^ 32 - 2 ^ 31.

(** [x << n] and [x & y] on numbers: both operands go through [ToInt32]. *)
Definition shl (x n : Z) : Z := toInt32 (Z.shiftl (toInt32 x) n).
Definition band (x y : Z) : Z := Z.land (toInt32 x) (toInt32 y).

(** The primitive values the models below need. *)
Inductive jsval :=
| JUndefined
| JNull
| JBool (b : bool)
| JNum (n : Z)
| JStr (s : jsstring).

(** *** [JSON.stringify] on strings, after ECMA-262 QuoteJSONString *)

Definition hexDigit (d : Z) : Z := digitChar d.

Definition uEscape (c : Z) : jsstring :=
  lit "\u" ++ [hexDigit (c / 4096 mod 16); hexDigit (c / 256 mod 16);
               hexDigit (c / 16 mod 16); hexDigit (c mod 16)].

Definition isHighSurrogate (c : Z) : bool := (55296 <=? c) && (c <=? 56319).
Definition isLowSurrogate (c : Z) : bool := (56320 <=? c) && (c <=? 57343).

Definition quoteUnit (c : Z) : jsstring :=
  if c =? 8 then lit "\b"
  else if c =? 9 then lit "\t"
  else if c =? 10 then lit "\n"
  else if c =? 12 then lit "\f"
  else if c =? 13 then lit "\r"
  else if c =? 34 then [92; 34]
  else if c =? 92 then [92; 92]
  else if c <? 32 then uEscape c
  else if isLowSurrogate c then uEscape c
  else [c].

Fixpoint quoteBody (s : jsstring) : jsstring :=
  match s with
  | [] => []
  | c :: rest =>
      if isHighSurrogate c then
        match rest with
        | d :: rest' =>
            if isLowSurrogate d then c :: d :: quoteBody rest'
            else uEscape c ++ quoteBody rest
        | [] => uEscape c
        end
      else quoteUnit c ++ quoteBody rest
  end.

Definition quoteJSONString (s : jsstring) : jsstring :=
  [34] ++ quoteBody s ++ [34].

(** [JSON.stringify] of a primitive property value; [None] when the
    property is left out (its value is [undefined]). *)
Definition stringifyVal (v : jsval) : option jsstring :=
  match v with
  | JUndefined => None
  | JNull => Some (lit "null")
  | JBool true => Some (lit "true")
  | JBool false => Some (lit "false")
  | JNum n => Some (toString10 n)
  | JStr s => Some (quoteJSONString s)
  end.

Fixpoint stringifyProps (first : bool) (props : list (string * jsval)) : jsstring :=
  match props with
  | [] => []
  | (k, v) :: rest =>
      match stringifyVal v with
      | None => stringifyProps first rest
      | Some sv =>
          (if first then [] else lit ",")
            ++ quoteJSONString (lit k) ++ lit ":" ++ sv
            ++ stringifyProps false rest
      end
  end.

(** [JSON.stringify] of a flat object, properties in insertion order. *)
Definition stringifyObject (props : list (string * jsval)) : jsstring :=
  lit "{" ++ stringifyProps true props ++ lit "}".

End JS.
Import JS.

(** ** Duration buckets ([AnalyticsTracker.getDurationBucket]) *)

Module Duration.

(** [duration] is in milliseconds; [Math.floor(duration / 1000)] is [Z.div]. *)
Definition getDurationBucket (duration : Z) : string :=
  let seconds := duration / 1000 in
  if seconds <? 10 then "0-10s"
  else if seconds <? 30 then "10-30s"
  else if seconds <? 60 then "30-60s"
  else if seconds <? 300 then "1-5m"
  else if seconds <? 600 then "5-10m"
  else if seconds <? 1800 then "10-30m"
  else if seconds <? 3600 then "30-60m"
  else "60m+".

End Duration.

(** ** The pseudo-user-id ([FirebaseUtils.getBrowserFingerprint]) *)

Module Fingerprint.

Record Navigator := {
  userAgent : jsstring;
  language : jsstring;
  platform : jsstring;
  cookieEnabled : bool;
  doNotTrack : jsval
}.

Record Screen := {
  width : Z;
  height : Z;
  colorDepth : Z
}.

(** What a page can read from its browser.  The fingerprint reads the
    navigator, the screen and the time zone; the clock, the random source
    and the local storage are here because other code reads them. *)
Record Browser := {
  navigator : Navigator;
  screen : Screen;
  timeZone : jsval;
  dateNow : Z;
  mathRandom : jsstring;
  storedSessionId : option jsstring
}.

(** The object literal [fingerprint], property by property. *)
Definition fingerprint (b : Browser) : list (string * jsval) :=
  [ ("userAgent"%string, JStr (userAgent (navigator b)));
    ("language"%string, JStr (language (navigator b)));
    ("platform"%string, JStr (platform (navigator b)));
    ("screen"%string,
      JStr (toString10 (width (screen b)) ++ lit "x" ++ toString10 (height (screen b))));
    ("colorDepth"%string, JNum (colorDepth (screen b)));
    ("timezone"%string, timeZone b);
    ("cookiesEnabled"%string, JBool (cookieEnabled (navigator b)));
    ("doNotTrack"%string, doNotTrack (navigator b)) ].

(** One turn of the loop: [hash = ((hash << 5) - hash) + char; hash = hash & hash]. *)
Definition hashStep (hash char : Z) : Z :=
  let hash1 := (shl hash 5 - hash) + char in
  band hash1 hash1.

(** The [for] loop over [fingerprintString], from [hash = 0]. *)
Definition hashString (s : jsstring) : Z := fold_left hashStep s 0.

Definition getBrowserFingerprint (b : Browser) : jsstring :=
  let fingerprintString := stringifyObject (fingerprint b) in
  let hash := hashString fingerprintString in
  toString36 (Z.abs hash).

(** [this.userId = 'user_' + FirebaseUtils.getBrowserFingerprint()]. *)
Definition userIdOf (b : Browser) : jsstring :=
  lit "user_" ++ getBrowserFingerprint b.

(** [FirebaseUtils.generateSessionId]: the id stored under [dtz_session_id]
    when there is one; else a fresh one, made of the clock and of
    [Math.random().toString(36).substr(2, 9)], which is then stored. *)
Definition freshSessionId (b : Browser) : jsstring :=
  lit "session_" ++ toString10 (dateNow b) ++ lit "_" ++ mathRandom b.

Definition storeSessionId (sid : jsstring) (b : Browser) : Browser :=
  {| navigator := navigator b; screen := screen b; timeZone := timeZone b;
     dateNow := dateNow b; mathRandom := mathRandom b;
     storedSessionId := Some sid |}.

Definition generateSessionId (b : Browser) : jsstring * Browser :=
  match storedSessionId b with
  | Some (c :: sid) => (c :: sid, b)
  | Some [] | None => (freshSessionId b, storeSessionId (freshSessionId b) b)
  end.

(** The eight attributes the fingerprint collects. *)
Definition sameAttributes (b1 b2 : Browser) : Prop :=
  userAgent (navigator b1) = userAgent (navigator b2) /\
  language (navigator b1) = language (navigator b2) /\
  platform (navigator b1) = platform (navigator b2) /\
  (width (screen b1) = width (screen b2) /\ height (screen b1) = height (screen b2)) /\
  colorDepth (screen b1) = colorDepth (screen b2) /\
  timeZone b1 = timeZone b2 /\
  cookieEnabled (navigator b1) = cookieEnabled (navigator b2) /\
  doNotTrack (navigator b1) = doNotTrack (navigator b2).

End Fingerprint.

(** ** The interaction counter: concurrent increments of one stored counter

    [rtdb.ref(path).transaction(current => (current || 0) + 1)] and
    [ServerValue.increment(1)] run against a store shared by independent
    sessions.  The store is the external collaborator; its two write
    disciplines are modelled as the design document describes them: the
    atomic increment is one indivisible step, the optimistic transaction
    reads the current value, computes, and commits by compare-and-set,
    reading again on conflict. *)

Module Counter.

Definition toolStatsPath (toolId action : jsstring) : jsstring :=
  lit "tool_stats/" ++ toolId ++ lit "/" ++ action.

(** [current || 0]: a missing counter ([null]) and [0] both give [0]. *)
Definition orZero (current : option Z) : Z :=
  match current with
  | Some v => if v =? 0 then 0 else v
  | None => 0
  end.

(** The update function of the source, [current => (current || 0) + 1]. *)
Definition increment (current : option Z) : Z := orZero current + 1.

Inductive Strategy := AtomicIncrement | Transaction.

Inductive Phase :=
| Pending (s : Strategy)
| Snapshot (current : option Z)
| Done.

Record Sys := {
  store : gmap (list Z) Z;
  callers : list Phase
}.

(** Modelled from the spec: the store's own increment and transaction
    protocol are not part of the sources (section 4.2: the atomic increment
    is conflict-free; the optimistic transaction is read-current, compute,
    compare-and-set, retry on conflict).  One step of caller [i] on the
    counter at [path]: an atomic increment is done in one step; a
    transaction first takes a snapshot of the current value, then commits
    [increment] of it if the value is still the one of the snapshot, and
    takes a new snapshot if it is not. *)
Definition step (path : jsstring) (sys : Sys) (i : nat) : Sys :=
  match callers sys !! i with
  | Some (Pending AtomicIncrement) =>
      {| store := <[path := orZero (store sys !! path) + 1]> (store sys);
         callers := <[i := Done]> (callers sys) |}
  | Some (Pending Transaction) =>
      {| store := store sys;
         callers := <[i := Snapshot (store sys !! path)]> (callers sys) |}
  | Some (Snapshot current) =>
      if decide (store sys !! path = current)
      then {| store := <[path := increment current]> (store sys);
              callers := <[i := Done]> (callers sys) |}
      else {| store := store sys;
              callers := <[i := Snapshot (store sys !! path)]> (callers sys) |}
  | Some Done | None => sys
  end.

(** An interleaving is the list of the callers' turns. *)
Definition run (path : jsstring) (schedule : list nat) (sys : Sys) : Sys :=
  fold_left (step path) schedule sys.

Definition start (initial : gmap (list Z) Z) (strategies : list Strategy) : Sys :=
  {| store := initial; callers := List.map Pending strategies |}.

Definition isDone (p : Phase) : bool :=
  match p with Done => true | _ => false end.

Definition allDone (sys : Sys) : bool := forallb isDone (callers sys).

Definition counterValue (path : jsstring) (sys : Sys) : Z := orZero (store sys !! path).

(** Every caller in turn, two steps each. *)
Definition sequential (n : nat) : list nat :=
  flat_map (fun i => [i; i]) (seq 0 n).

(** The callers that are done. *)
Definition doneCount (ps : list Phase) : nat := length (List.filter isDone ps).

(** The stored counter is ahead of [base] by the number of callers that
    are done. *)
Definition counted (path : jsstring) (base : Z) (sys : Sys) : Prop :=
  counterValue path sys = base + Z.of_nat (doneCount (callers sys)).

End Counter.

(** ** The session tracker ([AnalyticsTracker])

    The page's event loop is modelled in logical time (milliseconds): every
    event carries the value [Date.now()] has while it is handled, timers
    fire at the time they are due, and an [async] method runs to its end
    before the next event is dispatched.  A remote write that rejects sends
    its method to the [catch] block, so the rest of the method is skipped. *)

Module Tracker.

Inductive Value :=
| VNum (n : Z)
| VStr (s : jsstring)
| VBool (b : bool).

Definition Fields := list (string * Value).

(** The operations of [rtdb.ref(path)] the tracker uses. *)
Inductive Op :=
| SetValue (v : Value)
| SetObject (fields : Fields)
| PushSet (fields : Fields)
| Update (fields : Fields)
| Remove
| TransactionIncrement.

Record Write := {
  w_time : Z;
  w_path : jsstring;
  w_op : Op
}.

(** What the tracker reads from the page it runs in: the path and the
    title of the page; the nine entries [startSession] takes from the
    navigator, the window and the document ([user_agent], [language],
    [platform], [screen_resolution], [referrer], [entry_url], [is_mobile],
    [browser], [os]); the date key [new Date(t).toISOString().split('T')[0]]
    of a time stamp; and which of the remote writes reject. *)
Record Host := {
  pathname : jsstring;
  title : jsstring;
  clientMetadata : Fields;
  isoDate : Z -> jsstring;
  rejects : Write -> bool
}.

(** [this] of the tracker, with the two timers it registers and the entries
    it leaves in [localStorage]. *)
Record State := {
  sessionId : jsstring;
  userId : jsstring;
  sessionStart : Z;
  pageViews : Z;
  lastActivity : Z;
  activityTimeout : option Z;
  heartbeatInterval : option Z;
  localStorage : list (jsstring * jsstring)
}.

Definition setPageViews (n : Z) (s : State) : State :=
  {| sessionId := sessionId s; userId := userId s; sessionStart := sessionStart s;
     pageViews := n; lastActivity := lastActivity s;
     activityTimeout := activityTimeout s; heartbeatInterval := heartbeatInterval s;
     localStorage := localStorage s |}.

Definition setLastActivity (t : Z) (s : State) : State :=
  {| sessionId := sessionId s; userId := userId s; sessionStart := sessionStart s;
     pageViews := pageViews s; lastActivity := t;
     activityTimeout := activityTimeout s; heartbeatInterval := heartbeatInterval s;
     localStorage := localStorage s |}.

Definition setActivityTimeout (d : option Z) (s : State) : State :=
  {| sessionId := sessionId s; userId := userId s; sessionStart := sessionStart s;
     pageViews := pageViews s; lastActivity := lastActivity s;
     activityTimeout := d; heartbeatInterval := heartbeatInterval s;
     localStorage := localStorage s |}.

Definition setHeartbeatInterval (d : option Z) (s : State) : State :=
  {| sessionId := sessionId s; userId := userId s; sessionStart := sessionStart s;
     pageViews := pageViews s; lastActivity := lastActivity s;
     activityTimeout := activityTimeout s; heartbeatInterval := d;
     localStorage := localStorage s |}.

Definition setItem (k v : jsstring) (s : State) : State :=
  {| sessionId := sessionId s; userId := userId s; sessionStart := sessionStart s;
     pageViews := pageViews s; lastActivity := lastActivity s;
     activityTimeout := activityTimeout s; heartbeatInterval := heartbeatInterval s;
     localStorage := (k, v) :: localStorage s |}.

(** The writes of one [try] block in order: all up to the first that rejects. *)
Fixpoint attempt (h : Host) (ws : list Write) : list Write :=
  match ws with
  | [] => []
  | w :: rest => w :: (if rejects h w then [] else attempt h rest)
  end.

Definition allAccepted (h : Host) (ws : list Write) : bool :=
  forallb (fun w => negb (rejects h w)) ws.

(** *** Paths *)

Definition sessionPath (s : State) : jsstring := lit "sessions/" ++ sessionId s.
Definition lastActivityPath (s : State) : jsstring :=
  lit "sessions/" ++ sessionId s ++ lit "/last_activity".
Definition heartbeatPath (s : State) : jsstring :=
  lit "sessions/" ++ sessionId s ++ lit "/heartbeat".
Definition activeSessionPath (s : State) : jsstring :=
  lit "stats/active_sessions/" ++ sessionId s.

(** [pathname.replace(/\//g, '_')]. *)
Definition pageKey (p : jsstring) : jsstring :=
  List.map (fun c => if c =? 47 then 95 else c) p.

(** *** The methods *)

Definition startSession (h : Host) (t : Z) (s : State) : State * list Write :=
  let sessionData :=
    [ ("session_id"%string, VStr (sessionId s));
      ("user_id"%string, VStr (userId s));
      ("start_time"%string, VNum (sessionStart s)) ] ++ clientMetadata h in
  (s, attempt h
    [ {| w_time := t; w_path := sessionPath s;
         w_op := SetObject (sessionData ++
                   [ ("last_activity"%string, VNum (lastActivity s));
                     ("page_views"%string, VNum 1);
                     ("status"%string, VStr (lit "active")) ]) |};
      {| w_time := t;
         w_path := lit "daily_users/" ++ isoDate h t ++ lit "/" ++ userId s;
         w_op := SetValue (VBool true) |};
      {| w_time := t; w_path := activeSessionPath s; w_op := SetValue (VBool true) |} ]).

Definition trackPageView (h : Host) (t : Z) (s : State) : State * list Write :=
  let s := setPageViews (pageViews s + 1) s in
  let s := setLastActivity t s in
  let pageData :=
    [ ("path"%string, VStr (pathname h));
      ("title"%string, VStr (title h));
      ("timestamp"%string, VNum (lastActivity s));
      ("session_id"%string, VStr (sessionId s));
      ("user_id"%string, VStr (userId s)) ] in
  (s, attempt h
    [ {| w_time := t;
         w_path := lit "page_views/" ++ sessionId s ++ lit "/" ++ toString10 (pageViews s);
         w_op := SetObject pageData |};
      {| w_time := t; w_path := sessionPath s;
         w_op := Update [ ("last_activity"%string, VNum (lastActivity s));
                          ("page_views"%string, VNum (pageViews s));
                          ("current_page"%string, VStr (pathname h)) ] |};
      {| w_time := t;
         w_path := lit "daily_pages/" ++ isoDate h t ++ lit "/" ++ pageKey (pathname h);
         w_op := TransactionIncrement |} ]).

Definition trackToolInteraction (h : Host) (t : Z) (toolId action : jsstring)
    (metadata : Fields) (s : State) : State * list Write :=
  let interactionData :=
    [ ("tool_id"%string, VStr toolId);
      ("action"%string, VStr action);
      ("session_id"%string, VStr (sessionId s));
      ("user_id"%string, VStr (userId s));
      ("timestamp"%string, VNum t) ] ++ metadata in
  let first :=
    [ {| w_time := t; w_path := lit "tool_interactions"; w_op := PushSet interactionData |};
      {| w_time := t; w_path := Counter.toolStatsPath toolId action;
         w_op := TransactionIncrement |} ] in
  if allAccepted h first then
    let s := setLastActivity t s in
    (s, first ++ [ {| w_time := t; w_path := lastActivityPath s;
                      w_op := SetValue (VNum (lastActivity s)) |} ])
  else (s, attempt h first).

Definition endSession (h : Host) (t : Z) (s : State) : State * list Write :=
  let sessionDuration := t - sessionStart s in
  let durationBucket := Duration.getDurationBucket sessionDuration in
  let ws :=
    [ {| w_time := t; w_path := sessionPath s;
         w_op := Update [ ("end_time"%string, VNum t);
                          ("duration"%string, VNum sessionDuration);
                          ("status"%string, VStr (lit "ended"));
                          ("page_views"%string, VNum (pageViews s)) ] |};
      {| w_time := t; w_path := activeSessionPath s; w_op := Remove |};
      {| w_time := t; w_path := lit "stats/session_durations/" ++ lit durationBucket;
         w_op := TransactionIncrement |} ] in
  if allAccepted h ws then
    (setItem (lit "session_" ++ sessionId s ++ lit "_end") (toString10 t) s, ws)
  else (s, attempt h ws).

Definition updateLastActivity (h : Host) (t : Z) (s : State) : State * list Write :=
  (s, [ {| w_time := t; w_path := lastActivityPath s;
           w_op := SetValue (VNum (lastActivity s)) |} ]).

Definition trackEvent (h : Host) (t : Z) (eventName : jsstring) (data : Fields)
    (s : State) : State * list Write :=
  (s, [ {| w_time := t; w_path := lit "events";
           w_op := PushSet ([ ("event"%string, VStr eventName);
                              ("session_id"%string, VStr (sessionId s));
                              ("user_id"%string, VStr (userId s));
                              ("timestamp"%string, VNum t) ] ++ data) |} ]).

(** The callback of [setupHeartbeat]; the interval timer arms itself again. *)
Definition heartbeatTick (h : Host) (t : Z) (s : State) : State * list Write :=
  (setHeartbeatInterval (Some (t + 30000)) s,
   [ {| w_time := t; w_path := heartbeatPath s; w_op := SetValue (VNum t) |} ]).

(** The callback of the debounce timer of [setupActivityListeners]. *)
Definition activityTick (h : Host) (t : Z) (s : State) : State * list Write :=
  updateLastActivity h t (setActivityTimeout None s).

(** *** Events *)

Inductive Event :=
| Input
| VisibilityChange (hidden : bool)
| BeforeUnload
| CallTrackPageView
| CallTrackToolInteraction (toolId action : jsstring) (metadata : Fields)
| CallEndSession
| CallTrackEvent (eventName : jsstring) (data : Fields).

(** The listener or method an event runs, at time [t]. *)
Definition dispatch (h : Host) (t : Z) (ev : Event) (s : State) : State * list Write :=
  match ev with
  | Input =>
      (* this.lastActivity = Date.now(); clearTimeout; setTimeout(..., 1000) *)
      (setActivityTimeout (Some (t + 1000)) (setLastActivity t s), [])
  | VisibilityChange true => trackEvent h t (lit "page_hidden") [] s
  | VisibilityChange false =>
      let '(s1, ws1) := trackEvent h t (lit "page_visible") [] s in
      let '(s2, ws2) := updateLastActivity h t (setLastActivity t s1) in
      (s2, ws1 ++ ws2)
  | BeforeUnload => endSession h t s
  | CallTrackPageView => trackPageView h t s
  | CallTrackToolInteraction toolId action metadata =>
      trackToolInteraction h t toolId action metadata s
  | CallEndSession => endSession h t s
  | CallTrackEvent eventName data => trackEvent h t eventName data s
  end.

(** *** Timers *)

Inductive Timer := ActivityTimer | HeartbeatTimer.

(** The pending timer that is due first. *)
Definition nextTimer (s : State) : option (Z * Timer) :=
  match activityTimeout s, heartbeatInterval s with
  | Some a, Some b => if a <? b then Some (a, ActivityTimer) else Some (b, HeartbeatTimer)
  | Some a, None => Some (a, ActivityTimer)
  | None, Some b => Some (b, HeartbeatTimer)
  | None, None => None
  end.

Definition fire (h : Host) (d : Z) (k : Timer) (s : State) : State * list Write :=
  match k with
  | ActivityTimer => activityTick h d s
  | HeartbeatTimer => heartbeatTick h d s
  end.

Fixpoint advance (h : Host) (fuel : nat) (t : Z) (s : State) : State * list Write :=
  match fuel with
  | O => (s, [])
  | S fuel' =>
      match nextTimer s with
      | Some (d, k) =>
          if d <=? t then
            let '(s1, ws1) := fire h d k s in
            let '(s2, ws2) := advance h fuel' t s1 in
            (s2, ws1 ++ ws2)
          else (s, [])
      | None => (s, [])
      end
  end.

(** How many timer callbacks are due up to [t]. *)
Definition dueCount (t : Z) (s : State) : nat :=
  Nat.add
    match activityTimeout s with
    | Some a => if a <=? t then 1%nat else 0%nat
    | None => 0%nat
    end
    match heartbeatInterval s with
    | Some b => if b <=? t then S (Z.to_nat ((t - b) / 30000)) else 0%nat
    | None => 0%nat
    end.

(** Let the time pass up to [t]: the due timers fire, earliest first. *)
Definition advanceTo (h : Host) (t : Z) (s : State) : State * list Write :=
  advance h (dueCount t s) t s.

(** One event of the page at time [t], after the timers due before it. *)
Definition step (h : Host) (acc : State * list Write) (e : Z * Event) : State * list Write :=
  let '(s, log) := acc in
  let '(t, ev) := e in
  let '(s1, ws1) := advanceTo h t s in
  let '(s2, ws2) := dispatch h t ev s1 in
  (s2, log ++ ws1 ++ ws2).

Definition run (h : Host) (trace : list (Z * Event)) (acc : State * list Write)
    : State * list Write :=
  fold_left (step h) trace acc.

(** Run a trace and then let the time pass up to [tEnd]. *)
Definition runUntil (h : Host) (trace : list (Z * Event)) (tEnd : Z)
    (acc : State * list Write) : State * list Write :=
  let '(s, log) := run h trace acc in
  let '(s1, ws1) := advanceTo h tEnd s in
  (s1, log ++ ws1).

(** The constructor and [init], at the time of the browser's clock. *)
Definition init (h : Host) (b : Fingerprint.Browser) : State * list Write :=
  let t := Fingerprint.dateNow b in
  let s0 :=
    {| sessionId := fst (Fingerprint.generateSessionId b);
       userId := Fingerprint.userIdOf b;
       sessionStart := t; pageViews := 0; lastActivity := t;
       activityTimeout := None; heartbeatInterval := None;
       localStorage := [] |} in
  let '(s1, ws1) := startSession h t s0 in
  let '(s2, ws2) := trackPageView h t s1 in
  (setHeartbeatInterval (Some (t + 30000)) s2, ws1 ++ ws2).

(** *** Reading the log *)



(** The writes of the last-activity time stamp, and of the heartbeat. *)
Definition lastActivityWrites (s : State) (log : list Write) : list Write :=
  filter (fun w => bool_decide (w_path w = lastActivityPath s)) log.

Definition heartbeatWrites (s : State) (log : list Write) : list Write :=
  filter (fun w => bool_decide (w_path w = heartbeatPath s)) log.

(** The fields a write puts in the record it addresses. *)
Definition fieldsOf (w : Write) : Fields :=
  match w_op w with
  | SetObject fs | PushSet fs | Update fs => fs
  | _ => []
  end.

(** The status a write gives the session record, if it gives one. *)
Definition statusWritten (s : State) (w : Write) : list Value :=
  if bool_decide (w_path w = sessionPath s)
  then List.map snd (filter (fun f => bool_decide (fst f = "status"%string)) (fieldsOf w))
  else [].



(** No write of a log gives the session record a status other than ended. *)
Definition onlyEnded (s : State) (ws : list Write) : Prop :=
  forall w v, In w ws -> In v (statusWritten s w) -> v = VStr (lit "ended").

(** The write of the heartbeat tick at [d]. *)
Definition heartbeatWrite (s : State) (d : Z) : Write :=
  {| w_time := d; w_path := heartbeatPath s; w_op := SetValue (VNum d) |}.

(** The ticks written so far, and the tick that is due next. *)
Definition ticking (s0 : State) (t0 : Z) (acc : State * list Write) : Prop :=
  sessionId (fst acc) = sessionId s0 /\
  exists j, 1 <= j /\
    heartbeatInterval (fst acc) = Some (t0 + 30000 * j) /\
    forall i, 1 <= i < j -> In (heartbeatWrite s0 (t0 + 30000 * i)) (snd acc).





End Tracker.

(** ** The tool viewer ([ToolViewer]) *)

Module Viewer.

Definition dq : jsstring := [34].

(** *** JavaScript conversions the viewer relies on *)

(** [!!v]. *)
Definition truthy (v : jsval) : bool :=
  match v with
  | JUndefined | JNull => false
  | JBool b => b
  | JNum n => negb (n =? 0)
  | JStr s => negb (bool_decide (s = []))
  end.

(** [`${v}`]. *)
Definition toStr (v : jsval) : jsstring :=
  match v with
  | JUndefined => lit "undefined"
  | JNull => lit "null"
  | JBool true => lit "true"
  | JBool false => lit "false"
  | JNum n => toString10 n
  | JStr s => s
  end.

(** What [element.textContent = v] sets: no text for [null] and
    [undefined], else the string of [v]. *)
Definition textContent (v : jsval) : jsstring :=
  match v with
  | JUndefined | JNull => []
  | _ => toStr v
  end.

(** [v !== false] and [v !== 'hosted']. *)
Definition isFalse (v : jsval) : bool :=
  match v with JBool false => true | _ => false end.

Definition isString (s : jsstring) (v : jsval) : bool :=
  match v with JStr s' => bool_decide (s' = s) | _ => false end.

(** A tool definition, as [toolDoc.data()] returns it. *)
Record ToolData := {
  name : jsval;
  description : jsval;
  enabled : jsval;
  type : jsval;
  hostedHtml : jsval;
  hostedCss : jsval;
  hostedJs : jsval;
  showHeader : jsval
}.

(** *** [escapeHtml]

    [div.textContent = text; return div.innerHTML]: the text becomes one
    text node, and [innerHTML] serialises it as the HTML Standard escapes a
    string outside attributes. *)

Definition escapeUnit (c : Z) : jsstring :=
  if c =? 38 then lit "&amp;"
  else if c =? 160 then lit "&nbsp;"
  else if c =? 60 then lit "&lt;"
  else if c =? 62 then lit "&gt;"
  else [c].

Definition serializeText (s : jsstring) : jsstring := flat_map escapeUnit s.

Definition escapeHtml (text : jsval) : jsstring :=
  if negb (truthy text) then [] else serializeText (toStr text).

(** What a parser reads back from text content: the four character
    references [serializeText] writes are decoded, anything else is kept. *)
Fixpoint sameUnits (s1 s2 : jsstring) : bool :=
  match s1, s2 with
  | [], [] => true
  | c1 :: r1, c2 :: r2 => (c1 =? c2) && sameUnits r1 r2
  | _, _ => false
  end.

Definition is3 (a b c : Z) (s : string) : bool := sameUnits [a; b; c] (lit s).
Definition is4 (a b c d : Z) (s : string) : bool := sameUnits [a; b; c; d] (lit s).
Definition is5 (a b c d e : Z) (s : string) : bool := sameUnits [a; b; c; d; e] (lit s).

Fixpoint decodeText (s : jsstring) : jsstring :=
  match s with
  | [] => []
  | c :: rest =>
      if c =? 38 then
        match rest with
        | c1 :: c2 :: c3 :: rest3 =>
            if is3 c1 c2 c3 "lt;" then 60 :: decodeText rest3
            else if is3 c1 c2 c3 "gt;" then 62 :: decodeText rest3
            else
              match rest3 with
              | c4 :: rest4 =>
                  if is4 c1 c2 c3 c4 "amp;" then 38 :: decodeText rest4
                  else
                    match rest4 with
                    | c5 :: rest5 =>
                        if is5 c1 c2 c3 c4 c5 "nbsp;" then 160 :: decodeText rest5
                        else 38 :: decodeText rest
                    | [] => 38 :: decodeText rest
                    end
              | [] => 38 :: decodeText rest
              end
        | _ => 38 :: decodeText rest
        end
      else c :: decodeText rest
  end.

(** The markup delimiters. *)
Definition isDelimiter (c : Z) : bool := (c =? 60) || (c =? 62).

(** *** The shell document of [loadToolIntoIframe] *)

(** The shell up to the document title. *)
Definition shellHead : jsstring :=
  lit "
            <!DOCTYPE html>
            <html lang="
  ++ dq
  ++ lit "en"
  ++ dq
  ++ lit ">
            <head>
                <meta charset="
  ++ dq
  ++ lit "UTF-8"
  ++ dq
  ++ lit ">
                <meta name="
  ++ dq
  ++ lit "viewport"
  ++ dq
  ++ lit " content="
  ++ dq
  ++ lit "width=device-width, initial-scale=1.0"
  ++ dq
  ++ lit ">
                <title>".

(** The base style sheet of the shell, up to the tool's styles. *)
Definition shellStyles : jsstring :=
  lit "</title>
                <style>
                    body {
                        margin: 0;
                        padding: 20px;
                        font-family: -apple-system, BlinkMacSystemFont, 'Segoe UI', Roboto, Oxygen, Ubuntu, sans-serif;
                        background: #f5f5f5;
                        color: #333;
                    }
                    
                    .tool-container {
                        max-width: 1200px;
                        margin: 0 auto;
                    }
                    
                    .tool-header {
                        margin-bottom: 30px;
                        padding-bottom: 20px;
                        border-bottom: 2px solid #e0e0e0;
                    }
                    
                    .tool-title {
                        color: #2c3e50;
                        margin: 0 0 10px 0;
                    }
                    
                    .tool-description {
                        color: #7f8c8d;
                        margin: 0;
                    }
                    
                    .tool-watermark {
                        position: fixed;
                        bottom: 10px;
                        right: 10px;
                        color: rgba(0, 0, 0, 0.1);
                        font-size: 12px;
                        pointer-events: none;
                        user-select: none;
                    }
                    
                    /* Dark mode support for tools */
                    @media (prefers-color-scheme: dark) {
                        body {
                            background: #1a1a1a;
                            color: #e0e0e0;
                        }
                        
                        .tool-header {
                            border-bottom-color: #333;
                        }
                        
                        .tool-title {
                            color: #fff;
                        }
                        
                        .tool-description {
                            color: #aaa;
                        }
                    }
                </style>
                
                <!-- Tool-specific styles from database -->
                ".

(** From the end of the head to the tool container. *)
Definition shellBodyOpen : jsstring :=
  lit "
            </head>
            <body>
                <div class="
  ++ dq
  ++ lit "tool-container"
  ++ dq
  ++ lit ">
                    ".

(** The header, shown unless [showHeader] is [false]. *)
Definition headerOpen : jsstring :=
  lit "
                        <div class="
  ++ dq
  ++ lit "tool-header"
  ++ dq
  ++ lit ">
                            <h1 class="
  ++ dq
  ++ lit "tool-title"
  ++ dq
  ++ lit ">".

Definition headerAfterTitle : jsstring :=
  lit "</h1>
                            ".

Definition descriptionOpen : jsstring :=
  lit "
                                <p class="
  ++ dq
  ++ lit "tool-description"
  ++ dq
  ++ lit ">".

Definition descriptionClose : jsstring :=
  lit "</p>
                            ".

Definition headerClose : jsstring :=
  lit "
                        </div>
                    ".

(** Between the header and the tool's markup. *)
Definition shellBeforeContent : jsstring :=
  lit "
                    
                    <!-- Tool content -->
                    ".

(** From the tool's markup to the tool's script. *)
Definition shellAfterContent : jsstring :=
  lit "
                </div>
                
                <div class="
  ++ dq
  ++ lit "tool-watermark"
  ++ dq
  ++ lit ">
                    Powered by Dark Tech Zone
                </div>
                
                <!-- Tool-specific scripts from database -->
                ".

Definition toolScriptOpen : jsstring :=
  lit "<script>".

Definition toolScriptClose : jsstring :=
  lit "</script>".

(** Between the tool's script and the isolation script. *)
Definition shellBeforeIsolation : jsstring :=
  lit "
                
                <script>".

(** The text of the isolation script of the shell. *)
Definition isolationScript : jsstring :=
  lit "
                    // Tool isolation - prevent access to parent window
                    if (window.parent !== window) {
                        // Block access to parent
                        Object.defineProperty(window, 'parent', { get: () => null });
                        Object.defineProperty(window, 'top', { get: () => null });
                        Object.defineProperty(window, 'opener', { get: () => null });
                        
                        // Block dangerous functions
                        window.open = () => null;
                        window.alert = () => console.log('[Tool] Alert blocked by sandbox');
                        window.confirm = () => { console.log('[Tool] Confirm blocked by sandbox'); return false; };
                        window.prompt = () => { console.log('[Tool] Prompt blocked by sandbox'); return null; };
                        
                        // Prevent navigation
                        window.addEventListener('beforeunload', (e) => {
                            e.preventDefault();
                            e.returnValue = '';
                        });
                    }
                    
                    // Tool initialization
                    document.addEventListener('DOMContentLoaded', () => {
                        console.log('Tool loaded in sandboxed environment');
                        
                        // Dispatch loaded event (for parent to detect)
                        try {
                            window.dispatchEvent(new Event('tool-loaded'));
                        } catch (e) {}
                    });
                ".

(** The end of the shell. *)
Definition shellTail : jsstring :=
  lit "</script>
            </body>
            </html>
        ".

(** The header block: [showHeader !== false ? ... : ''], with the
    description only when there is one. *)
Definition header (td : ToolData) : jsstring :=
  if negb (isFalse (showHeader td)) then
    headerOpen ++ escapeHtml (name td) ++ headerAfterTitle
      ++ (if truthy (description td)
          then descriptionOpen ++ escapeHtml (description td) ++ descriptionClose
          else [])
      ++ headerClose
  else [].

(** [hostedCss || '']. *)
Definition toolStyles (td : ToolData) : jsstring :=
  if truthy (hostedCss td) then toStr (hostedCss td) else [].

(** [hostedJs ? `<script>${hostedJs}</script>` : '']. *)
Definition toolScript (td : ToolData) : jsstring :=
  if truthy (hostedJs td)
  then toolScriptOpen ++ toStr (hostedJs td) ++ toolScriptClose
  else [].

(** The template literal [toolHtml]. *)
Definition toolHtml (td : ToolData) : jsstring :=
  shellHead ++ escapeHtml (name td) ++ shellStyles
    ++ toolStyles td ++ shellBodyOpen
    ++ header td ++ shellBeforeContent
    ++ toStr (hostedHtml td) ++ shellAfterContent
    ++ toolScript td ++ shellBeforeIsolation
    ++ isolationScript ++ shellTail.

(** *** The viewer and its page *)

Record Iframe := {
  className : jsstring;
  sandbox : jsstring;
  allow : jsstring;
  referrerpolicy : jsstring;
  csp : jsstring;
  display : jsstring;
  written : option jsstring;
  listening : bool
}.

(** The children of [#viewer-content]. *)
Inductive Panel :=
| Untouched
| IframeChild
| LoadingPanel (toolName : jsstring)
| ErrorPanel (escapedMessage : jsstring).

(** One multi-path [update] of [trackToolView]. *)
Inductive ViewOp := IncrementBy (n : Z) | SetTo (v : Z).

Record Viewer := {
  toolId : jsval;
  toolData : option ToolData;
  iframe : option Iframe;
  isLoading : bool;
  viewerContent : option Panel;
  documentTitle : jsstring;
  toolTitle : option jsstring;
  viewUpdates : list (list (jsstring * ViewOp));
  storage : list (jsstring * jsstring);
  console : list jsstring
}.

Definition withIframe (f : option Iframe) (v : Viewer) : Viewer :=
  {| toolId := toolId v; toolData := toolData v; iframe := f; isLoading := isLoading v;
     viewerContent := viewerContent v; documentTitle := documentTitle v;
     toolTitle := toolTitle v; viewUpdates := viewUpdates v; storage := storage v;
     console := console v |}.

Definition withContent (p : option Panel) (v : Viewer) : Viewer :=
  {| toolId := toolId v; toolData := toolData v; iframe := iframe v; isLoading := isLoading v;
     viewerContent := p; documentTitle := documentTitle v;
     toolTitle := toolTitle v; viewUpdates := viewUpdates v; storage := storage v;
     console := console v |}.

Definition withToolData (td : option ToolData) (v : Viewer) : Viewer :=
  {| toolId := toolId v; toolData := td; iframe := iframe v; isLoading := isLoading v;
     viewerContent := viewerContent v; documentTitle := documentTitle v;
     toolTitle := toolTitle v; viewUpdates := viewUpdates v; storage := storage v;
     console := console v |}.

Definition withTitles (d : jsstring) (t : option jsstring) (v : Viewer) : Viewer :=
  {| toolId := toolId v; toolData := toolData v; iframe := iframe v; isLoading := isLoading v;
     viewerContent := viewerContent v; documentTitle := d;
     toolTitle := t; viewUpdates := viewUpdates v; storage := storage v;
     console := console v |}.

Definition withView (u : list (jsstring * ViewOp)) (k x : jsstring) (v : Viewer) : Viewer :=
  {| toolId := toolId v; toolData := toolData v; iframe := iframe v; isLoading := isLoading v;
     viewerContent := viewerContent v; documentTitle := documentTitle v;
     toolTitle := toolTitle v; viewUpdates := viewUpdates v ++ [u];
     storage := (k, x) :: storage v; console := console v |}.

Definition logError (m : jsstring) (v : Viewer) : Viewer :=
  {| toolId := toolId v; toolData := toolData v; iframe := iframe v; isLoading := isLoading v;
     viewerContent := viewerContent v; documentTitle := documentTitle v;
     toolTitle := toolTitle v; viewUpdates := viewUpdates v; storage := storage v;
     console := console v ++ [m] |}.

Definition setDisplay (d : jsstring) (f : Iframe) : Iframe :=
  {| className := className f; sandbox := sandbox f; allow := allow f;
     referrerpolicy := referrerpolicy f; csp := csp f; display := d;
     written := written f; listening := listening f |}.

Definition setWritten (doc : jsstring) (f : Iframe) : Iframe :=
  {| className := className f; sandbox := sandbox f; allow := allow f;
     referrerpolicy := referrerpolicy f; csp := csp f; display := display f;
     written := Some doc; listening := true |}.

(** The page before the viewer is constructed; [hasContent] tells whether
    it has a [#viewer-content] element, [hasTitle] a [#tool-title]. *)
Definition newViewer (hasContent hasTitle : bool) (pageTitle : jsstring) : Viewer :=
  {| toolId := JNull; toolData := None; iframe := None; isLoading := false;
     viewerContent := if hasContent then Some Untouched else None;
     documentTitle := pageTitle;
     toolTitle := if hasTitle then Some [] else None;
     viewUpdates := []; storage := []; console := [] |}.

Definition setupViewer (v : Viewer) : Viewer :=
  let frame :=
    {| className := lit "viewer-frame";
       sandbox := lit "allow-scripts allow-same-origin allow-forms allow-modals allow-popups";
       allow := lit "accelerometer; ambient-light-sensor; camera; encrypted-media; geolocation; gyroscope; microphone; midi; payment; usb; vr";
       referrerpolicy := lit "no-referrer";
       csp := lit "default-src 'self'; script-src 'self' 'unsafe-inline' 'unsafe-eval'; style-src 'self' 'unsafe-inline';";
       display := [];
       written := None;
       listening := false |} in
  let v := withIframe (Some frame) v in
  match viewerContent v with
  | Some _ => withContent (Some IframeChild) v
  | None => v
  end.

(** [this.toolData?.name || 'tool']. *)
Definition loadingName (v : Viewer) : jsstring :=
  match toolData v with
  | Some td => if truthy (name td) then toStr (name td) else lit "tool"
  | None => lit "tool"
  end.

Definition showLoading (show : bool) (v : Viewer) : Viewer :=
  match viewerContent v with
  | None => v
  | Some _ =>
      if show then
        withContent (Some (LoadingPanel (loadingName v)))
          (withIframe (option_map (setDisplay (lit "none")) (iframe v)) v)
      else
        withIframe (option_map (setDisplay (lit "block")) (iframe v))
          (withContent (Some IframeChild) v)
  end.

Definition showError (message : jsstring) (v : Viewer) : Viewer :=
  match viewerContent v with
  | Some _ => withContent (Some (ErrorPanel (escapeHtml (JStr message)))) v
  | None => v
  end.

(** [loadToolIntoIframe]: nothing without an iframe or without markup;
    else the shell document is written and the iframe listened to. *)
Definition loadToolIntoIframe (v : Viewer) : Viewer :=
  match iframe v, toolData v with
  | Some f, Some td =>
      if truthy (hostedHtml td) then withIframe (Some (setWritten (toolHtml td) f)) v
      else v
  | _, _ => v
  end.

Definition trackToolView (isoDate : Z -> jsstring) (t : Z) (v : Viewer) : Viewer :=
  let id := toStr (toolId v) in
  withView
    [ (lit "tool_views/" ++ id ++ lit "/total", IncrementBy 1);
      (lit "tool_views/" ++ id ++ lit "/last_view", SetTo t);
      (lit "daily_views/" ++ isoDate t ++ lit "/" ++ id, IncrementBy 1) ]
    (lit "last_tool_view_" ++ id) (toString10 t) v.

(** What [db.collection('tools').doc(id).get()] settles to. *)
Inductive Fetch :=
| Rejected (message : jsstring)
| Snapshot (data : option ToolData).

(** The messages of the errors [loadTool] throws. *)
Definition errNotFound : jsstring := lit "Tool not found".
Definition errDisabled : jsstring := lit "This tool is currently disabled".
Definition errTypeMismatch : jsstring := lit "This tool cannot be viewed in the viewer".
Definition errPayloadMissing : jsstring := lit "No HTML content available for this tool".

(** The [try] block of [loadTool]: the viewer where the block is left, and
    the message of the error thrown, if one is. *)
Definition tryLoadTool (isoDate : Z -> jsstring) (f : Fetch) (t : Z) (v : Viewer)
    : Viewer * option jsstring :=
  match f with
  | Rejected m => (v, Some m)
  | Snapshot None => (v, Some errNotFound)
  | Snapshot (Some td) =>
      let v := withToolData (Some td) v in
      if negb (truthy (enabled td)) then (v, Some errDisabled)
      else if negb (isString (lit "hosted") (type td)) then (v, Some errTypeMismatch)
      else if negb (truthy (hostedHtml td)) then (v, Some errPayloadMissing)
      else
        let v := withTitles (toStr (name td) ++ lit " - Dark Tech Zone")
                   (option_map (fun _ => textContent (name td)) (toolTitle v)) v in
        let v := loadToolIntoIframe v in
        let v := trackToolView isoDate t v in
        (v, None)
  end.

(** [loadTool], with what the fetch settles to; the error caught is returned
    beside the viewer. *)
Definition loadTool (isoDate : Z -> jsstring) (f : Fetch) (t : Z) (v : Viewer)
    : Viewer * option jsstring :=
  let v := showLoading true v in
  let '(v, err) := tryLoadTool isoDate f t v in
  let v := match err with
           | Some m => showError m (logError m v)
           | None => v
           end in
  (showLoading false v, err).

(** The constructor and [init] for the page address parameter [id],
    followed by [loadTool] when there is an id. *)
Definition init (isoDate : Z -> jsstring) (id : jsval) (f : Fetch) (t : Z) (v : Viewer)
    : Viewer * option jsstring :=
  let v :=
    {| toolId := id; toolData := toolData v; iframe := iframe v; isLoading := isLoading v;
       viewerContent := viewerContent v; documentTitle := documentTitle v;
       toolTitle := toolTitle v; viewUpdates := viewUpdates v; storage := storage v;
       console := console v |} in
  if negb (truthy id) then (showError (lit "No tool ID specified") v, None)
  else loadTool isoDate f t (setupViewer v).


End Viewer.

(** ** Inside the iframe: the scripts of the shell document

    The document written into the iframe has up to two script blocks, in
    this order: the tool's own script (when [hostedJs] is not empty) and the
    isolation script of the shell.  A parser runs script blocks in document
    order, and the handlers of [DOMContentLoaded] after all of them.  The
    tool's code is opaque; what matters here is what it can do with the
    window, so its behaviour is a list of the commands below. *)

Module Sandbox.

(** What [window.parent], [window.top] and [window.opener] evaluate to. *)
Inductive Ref := HostWindow | FrameWindow | Null.

(** A window function is the browser's own or the replacement the
    isolation script assigns. *)
Inductive Fn := Native | Replaced.

(** What tool code does with its window. *)
Inductive Cmd :=
| ReadParent
| ReadTop
| ReadOpener
| CallOpen
| CallAlert
| CallConfirm
| CallPrompt
| OnDOMContentLoaded (body : Cmd).

(** What tool code gets back, or causes. *)
Inductive Obs :=
| Got (r : Ref)
| Returned (v : jsval)
| PopupOpened
| DialogShown.

Inductive Handler := ToolHandler (body : Cmd) | ShellReady.

Record Window := {
  parent : Ref;
  top : Ref;
  opener : Ref;
  open : Fn;
  alert : Fn;
  confirm : Fn;
  prompt : Fn;
  unloadGuard : bool;
  handlers : list Handler;
  console : list jsstring;
  toolLoaded : nat
}.


Definition log (m : jsstring) (w : Window) : Window :=
  {| parent := parent w; top := top w; opener := opener w;
     open := open w; alert := alert w; confirm := confirm w; prompt := prompt w;
     unloadGuard := unloadGuard w; handlers := handlers w;
     console := console w ++ [m]; toolLoaded := toolLoaded w |}.

Definition addHandler (hd : Handler) (w : Window) : Window :=
  {| parent := parent w; top := top w; opener := opener w;
     open := open w; alert := alert w; confirm := confirm w; prompt := prompt w;
     unloadGuard := unloadGuard w; handlers := handlers w ++ [hd];
     console := console w; toolLoaded := toolLoaded w |}.

Definition exec (c : Cmd) (w : Window) : Window * list Obs :=
  match c with
  | ReadParent => (w, [Got (parent w)])
  | ReadTop => (w, [Got (top w)])
  | ReadOpener => (w, [Got (opener w)])
  | CallOpen =>
      match open w with
      | Native => (w, [PopupOpened])
      | Replaced => (w, [Returned JNull])
      end
  | CallAlert =>
      match alert w with
      | Native => (w, [DialogShown])
      | Replaced => (log (lit "[Tool] Alert blocked by sandbox") w, [Returned JUndefined])
      end
  | CallConfirm =>
      match confirm w with
      | Native => (w, [DialogShown])
      | Replaced => (log (lit "[Tool] Confirm blocked by sandbox") w, [Returned (JBool false)])
      end
  | CallPrompt =>
      match prompt w with
      | Native => (w, [DialogShown])
      | Replaced => (log (lit "[Tool] Prompt blocked by sandbox") w, [Returned JNull])
      end
  | OnDOMContentLoaded body => (addHandler (ToolHandler body) w, [])
  end.

Fixpoint execAll (cs : list Cmd) (w : Window) : Window * list Obs :=
  match cs with
  | [] => (w, [])
  | c :: rest =>
      let '(w1, o1) := exec c w in
      let '(w2, o2) := execAll rest w1 in
      (w2, o1 ++ o2)
  end.

(** The isolation script: the block guarded by [window.parent !== window],
    then the registration of the shell's own [DOMContentLoaded] handler. *)
Definition isolation (w : Window) : Window :=
  let w1 :=
    match parent w with
    | FrameWindow => w
    | _ =>
        {| parent := Null; top := Null; opener := Null;
           open := Replaced; alert := Replaced; confirm := Replaced; prompt := Replaced;
           unloadGuard := true; handlers := handlers w;
           console := console w; toolLoaded := toolLoaded w |}
    end in
  addHandler ShellReady w1.

Definition runHandler (hd : Handler) (w : Window) : Window * list Obs :=
  match hd with
  | ToolHandler body => exec body w
  | ShellReady =>
      let w := log (lit "Tool loaded in sandboxed environment") w in
      ({| parent := parent w; top := top w; opener := opener w;
          open := open w; alert := alert w; confirm := confirm w; prompt := prompt w;
          unloadGuard := unloadGuard w; handlers := handlers w;
          console := console w; toolLoaded := S (toolLoaded w) |}, [])
  end.

Fixpoint runHandlers (hs : list Handler) (w : Window) : Window * list Obs :=
  match hs with
  | [] => (w, [])
  | hd :: rest =>
      let '(w1, o1) := runHandler hd w in
      let '(w2, o2) := runHandlers rest w1 in
      (w2, o1 ++ o2)
  end.

(** The script blocks of [toolHtml td], in document order. *)
Inductive Script := ToolScript | IsolationScript.

Definition scripts (td : Viewer.ToolData) : list Script :=
  (if Viewer.truthy (Viewer.hostedJs td) then [ToolScript] else []) ++ [IsolationScript].

Definition runScript (behaviour : list Cmd) (sc : Script) (w : Window) : Window * list Obs :=
  match sc with
  | ToolScript => execAll behaviour w
  | IsolationScript => (isolation w, [])
  end.

Fixpoint runScripts (behaviour : list Cmd) (scs : list Script) (w : Window)
    : Window * list Obs :=
  match scs with
  | [] => (w, [])
  | sc :: rest =>
      let '(w1, o1) := runScript behaviour sc w in
      let '(w2, o2) := runScripts behaviour rest w1 in
      (w2, o1 ++ o2)
  end.

(** Loading the document: the script blocks, then [DOMContentLoaded].
    The first component of the observations is what the tool's code saw
    while its script block ran, the second what its handlers saw later. *)
Definition loadDocument (td : Viewer.ToolData) (behaviour : list Cmd) (w : Window)
    : Window * (list Obs * list Obs) :=
  let '(w1, o1) := runScripts behaviour (scripts td) w in
  let '(w2, o2) := runHandlers (handlers w1) w1 in
  (w2, (o1, o2)).

(** A reference or a call the host page is exposed through. *)
Definition exposes (o : Obs) : bool :=
  match o with
  | Got HostWindow => true
  | PopupOpened | DialogShown => true
  | _ => false
  end.

End Sandbox.

(** ** Concrete inputs *)

Module Samples.

Import Fingerprint.

(** [new Date(t).toISOString().split('T')[0]] for years 0 to 9999: the
    calendar date of the time stamp [t] (milliseconds), in UTC. *)
Definition pad (n : nat) (s : jsstring) : jsstring :=
  repeat 48 (n - length s) ++ s.

Definition utcDate (t : Z) : jsstring :=
  let z := t / 86400000 + 719468 in
  let era := z / 146097 in
  let doe := z - era * 146097 in
  let yoe := (doe - doe / 1460 + doe / 36524 - doe / 146096) / 365 in
  let doy := doe - (365 * yoe + yoe / 4 - yoe / 100) in
  let mp := (5 * doy + 2) / 153 in
  let d := doy - (153 * mp + 2) / 5 + 1 in
  let m := if mp <? 10 then mp + 3 else mp - 9 in
  let y := yoe + era * 400 + (if m <=? 2 then 1 else 0) in
  pad 4 (toString10 y) ++ lit "-" ++ pad 2 (toString10 m) ++ lit "-" ++ pad 2 (toString10 d).

Definition desktop : Browser :=
  {| navigator := {| userAgent := lit "Mozilla/5.0 (X11; Linux x86_64)";
                     language := lit "en-US"; platform := lit "Linux x86_64";
                     cookieEnabled := true; doNotTrack := JNull |};
     screen := {| width := 1920; height := 1080; colorDepth := 24 |};
     timeZone := JStr (lit "Europe/Paris");
     dateNow := 1700000000000; mathRandom := lit "k3j9x0q2a";
     storedSessionId := None |}.

Definition desktopLater : Browser :=
  {| navigator := navigator desktop; screen := screen desktop;
     timeZone := timeZone desktop;
     dateNow := 1700000360000; mathRandom := lit "zz81mmq0p";
     storedSessionId := Some (lit "session_1700000000000_k3j9x0q2a") |}.

Import Viewer.

(** A hosted tool whose name and description carry markup, and whose script
    reads the enclosing page at its top level. *)
Definition markupTool : ToolData :=
  {| name := JStr (lit "<script>alert(1)</script>");
     description := JStr (lit "fast & <b>free</b>");
     enabled := JBool true;
     type := JStr (lit "hosted");
     hostedHtml := JStr (lit "<button id='go'>Go</button>");
     hostedCss := JStr (lit "<style>button { color: red }</style>");
     hostedJs := JStr (lit "console.log(window.parent.document.title); alert(window.top.location)");
     showHeader := JUndefined |}.






Import Tracker.

(** A page of the toolkit whose remote writes all succeed. *)
Definition homePage : Host :=
  {| pathname := lit "/tools/index.html";
     title := lit "Dark Tech Zone Toolkit";
     clientMetadata :=
       [ ("user_agent"%string, VStr (userAgent (navigator desktop)));
         ("language"%string, VStr (language (navigator desktop)));
         ("platform"%string, VStr (platform (navigator desktop)));
         ("screen_resolution"%string, VStr (lit "1920x1080"));
         ("referrer"%string, VStr (lit "direct"));
         ("entry_url"%string, VStr (lit "https://dtz-toolkit.web.app/tools/index.html"));
         ("is_mobile"%string, VBool false);
         ("browser"%string, VStr (lit "Other"));
         ("os"%string, VStr (lit "Linux")) ];
     isoDate := utcDate;
     rejects := fun _ => false |}.

(** The tracker constructed on [homePage], and the time of it. *)
Definition started : State * list Write := Tracker.init homePage desktop.

Definition loaded : Z := dateNow desktop.

(** The session is ended five seconds after the page is loaded. *)
Definition endedEarly : list (Z * Event) := [(loaded + 5000, CallEndSession)].

Definition inputThenEnd : list (Z * Event) :=
  [(loaded + 2000, Input); (loaded + 5000, CallEndSession)].

(** Three input signals within a second, and one more later. *)
Definition burst : list (Z * Event) :=
  [(loaded + 1200, Input); (loaded + 1500, Input); (loaded + 1900, Input);
   (loaded + 4000, Input)].

End Samples.

(** ** User-agent sniffing ([AnalyticsTracker.detectBrowser], [detectOS]) *)

Module Agent.

(** [s.startsWith(sub)] and [s.includes(sub)], on code units. *)
Fixpoint startsWith (sub s : jsstring) : bool :=
  match sub, s with
  | [], _ => true
  | c :: sub', d :: s' => (c =? d) && startsWith sub' s'
  | _ :: _, [] => false
  end.

Fixpoint includes (s sub : jsstring) : bool :=
  startsWith sub s ||
  match s with
  | [] => false
  | _ :: rest => includes rest sub
  end.

Definition detectBrowser (ua : jsstring) : string :=
  if includes ua (lit "Chrome") && negb (includes ua (lit "Edg")) then "Chrome"
  else if includes ua (lit "Firefox") then "Firefox"
  else if includes ua (lit "Safari") && negb (includes ua (lit "Chrome")) then "Safari"
  else if includes ua (lit "Edg") then "Edge"
  else if includes ua (lit "Opera") || includes ua (lit "OPR") then "Opera"
  else "Other".

Definition detectOS (ua : jsstring) : string :=
  if includes ua (lit "Windows") then "Windows"
  else if includes ua (lit "Mac") then "macOS"
  else if includes ua (lit "Linux") then "Linux"
  else if includes ua (lit "Android") then "Android"
  else if includes ua (lit "iOS") || includes ua (lit "iPhone") || includes ua (lit "iPad")
  then "iOS"
  else "Unknown".

End Agent.

(** ** Guarded Firestore operations ([FirebaseUtils.safeFirestoreOperation])
    and the page's [firebase-error] listener *)

Module Firestore.









End Firestore.

(** ** Click accounting of the tool catalogue ([ToolsLoader.trackToolClick]) *)

Module Loader.

(** The entries of the multi-path [update], in the order they are put in
    [updates]; the session id is the stored one, or is made and stored. *)
Definition trackToolClick (isoDate : Z -> jsstring) (b : Fingerprint.Browser)
    (toolId : jsstring) : list (jsstring * Viewer.ViewOp) * Fingerprint.Browser :=
  let '(sessionId, b') := Fingerprint.generateSessionId b in
  let timestamp := Fingerprint.dateNow b in
  let dateKey := isoDate timestamp in
  ([ (lit "tool_clicks/" ++ toolId ++ lit "/total", Viewer.IncrementBy 1);
     (lit "tool_clicks/" ++ toolId ++ lit "/last_click", Viewer.SetTo timestamp);
     (lit "daily_clicks/" ++ dateKey ++ lit "/" ++ toolId, Viewer.IncrementBy 1);
     (lit "user_sessions/" ++ sessionId ++ lit "/last_activity", Viewer.SetTo timestamp);
     (lit "user_sessions/" ++ sessionId ++ lit "/tools/" ++ toolId, Viewer.IncrementBy 1) ],
   b').

End Loader.

(** ** Further readings of the tracker's log and of the fingerprint *)

Module Readings.

Import Tracker.

(** The hash of the fingerprint without the wrap-around: the polynomial in
    31 whose coefficients are the code units. *)
Definition polynomial (s : jsstring) : Z := fold_left (fun p c => 31 * p + c) s 0.



(** The sequence numbers 1 to [n]. *)
Definition numbers (n : nat) : list Z := List.map Z.of_nat (seq 1 n).

(** The write of the debounce timer for the signal at [v]. *)
Definition debouncedWrite (s : State) (v : Z) : Write :=
  {| w_time := v + 1000; w_path := lastActivityPath s; w_op := SetValue (VNum v) |}.

(** No path of the list is the beginning of another one of it. *)
Definition noOverlap (paths : list jsstring) : Prop :=
  forall i j p q, paths !! i = Some p -> paths !! j = Some q -> i <> j ->
                  ~ Agent.startsWith p q = true.

(** The heartbeat ticks written so far are the first [n], in order, none of
    them after [bound], and the next one is due. *)
Definition beating (s0 : State) (t0 bound : Z) (acc : State * list Write) : Prop :=
  sessionId (fst acc) = sessionId s0 /\
  exists n : nat,
    heartbeatInterval (fst acc) = Some (t0 + 30000 * Z.of_nat (S n)) /\
    heartbeatWrites s0 (snd acc)
    = List.map (fun k => heartbeatWrite s0 (t0 + 30000 * k)) (numbers n) /\
    (n <> 0%nat -> t0 + 30000 * Z.of_nat n <= bound).



(** The paths of the multi-path update of [trackToolView]. *)
Definition viewPaths (isoDate : Z -> jsstring) (t : Z) (v : Viewer.Viewer) : list jsstring :=
  List.map fst (last (Viewer.viewUpdates (Viewer.trackToolView isoDate t v)) []).

(** A code unit [escapeHtml] leaves as it is. *)
Definition plain (c : Z) : bool :=
  negb ((c =? 38) || (c =? 160) || (c =? 60) || (c =? 62)).

End Readings.

(** ** More concrete inputs *)

Module Cases.

Import Fingerprint Samples.

Definition androidChrome : jsstring :=
  lit "Mozilla/5.0 (Linux; Android 10; K) AppleWebKit/537.36 (KHTML, like Gecko) Chrome/120.0.0.0 Mobile Safari/537.36".

Definition iPhoneSafari : jsstring :=
  lit "Mozilla/5.0 (iPhone; CPU iPhone OS 16_0 like Mac OS X) AppleWebKit/605.1.15 (KHTML, like Gecko) Version/16.0 Mobile/15E148 Safari/604.1".

Definition operaDesktop : jsstring :=
  lit "Mozilla/5.0 (X11; Linux x86_64) AppleWebKit/537.36 (KHTML, like Gecko) Chrome/120.0.0.0 Safari/537.36 OPR/106.0.0.0".

Definition operaPresto : jsstring :=
  lit "Opera/9.80 (X11; U; en) Presto/2.12.388 Version/12.16".

Definition androidPlain : jsstring := lit "Dalvik/2.1.0 (Android 14)".

(** The page after a first call of [generateSessionId], at a later time. *)
Definition returning : Browser :=
  {| navigator := navigator desktop; screen := screen desktop;
     timeZone := timeZone desktop;
     dateNow := 1700000999000; mathRandom := lit "q7w1e5r9t";
     storedSessionId := storedSessionId (snd (generateSessionId desktop)) |}.

End Cases.

(** * Properties *)

(** ** Numerals *)

Section Numerals.

Import JS.

Lemma digitChar_digit36 d : 0 <= d < 36 -> isDigit36 (digitChar d) = true.
Proof.
  intros Hd. unfold isDigit36, digitChar.
  destruct (d <? 10) eqn:E; [apply Z.ltb_lt in E | apply Z.ltb_ge in E].
  - apply orb_true_iff. left. apply andb_true_iff. split; apply Z.leb_le; lia.
  - apply orb_true_iff. right. apply andb_true_iff. split; apply Z.leb_le; lia.
Qed.

Lemma digitVal_digitChar d : 0 <= d < 36 -> digitVal (digitChar d) = d.
Proof.
  intros Hd. unfold digitVal, digitChar.
  destruct (d <? 10) eqn:E; [apply Z.ltb_lt in E | apply Z.ltb_ge in E].
  - destruct (48 + d <? 58) eqn:F; [lia | apply Z.ltb_ge in F; lia].
  - destruct (87 + d <? 58) eqn:F; [apply Z.ltb_lt in F; lia | lia].
Qed.

Lemma digitsRadix_digit36 fuel : forall n acc,
  0 <= n -> Forall (fun c => isDigit36 c = true) acc ->
  Forall (fun c => isDigit36 c = true) (digitsRadix 36 fuel n acc).
Proof.
  induction fuel as [|fuel IH]; intros n acc Hn Hacc; simpl; [exact Hacc|].
  assert (Hd : isDigit36 (digitChar (n mod 36)) = true).
  { apply digitChar_digit36. apply Z.mod_pos_bound. lia. }
  destruct (n / 36 =? 0).
  - constructor; assumption.
  - apply IH; [apply Z.div_pos; lia | constructor; assumption].
Qed.

(** Reading the digits back gives the number, when the fuel covers it. *)
Lemma parse_digitsRadix fuel : forall n acc,
  0 <= n < 2 ^ Z.of_nat fuel ->
  fold_left (fun v c => v * 36 + digitVal c) (digitsRadix 36 fuel n acc) 0
  = fold_left (fun v c => v * 36 + digitVal c) acc n.
Proof.
  induction fuel as [|fuel IH]; intros n acc Hn.
  - simpl in *. assert (n = 0) by lia. subst. reflexivity.
  - cbn [digitsRadix].
    assert (Hm : 0 <= n mod 36 < 36) by (apply Z.mod_pos_bound; lia).
    assert (Hq : n = 36 * (n / 36) + n mod 36) by (apply Z.div_mod; lia).
    destruct (n / 36 =? 0) eqn:E.
    + apply Z.eqb_eq in E. cbn [fold_left].
      rewrite digitVal_digitChar by assumption. f_equal. lia.
    + apply Z.eqb_neq in E. rewrite IH.
      * cbn [fold_left]. rewrite digitVal_digitChar by assumption. f_equal. lia.
      * assert (0 <= n / 36) by (apply Z.div_pos; lia).
        split; [assumption|].
        rewrite Nat2Z.inj_succ, Z.pow_succ_r in Hn by lia.
        apply Z.div_lt_upper_bound; lia.
Qed.

Lemma log2_fuel n : 0 <= n -> 0 <= n < 2 ^ Z.of_nat (S (Z.to_nat (Z.log2 n))).
Proof.
  intros Hn. split; [assumption|].
  rewrite Nat2Z.inj_succ, Z2Nat.id by apply Z.log2_nonneg.
  destruct (Z.eq_dec n 0) as [->|Hz]; [reflexivity|].
  apply Z.log2_spec. lia.
Qed.

Lemma toString36_digits n : 0 <= n -> Forall (fun c => isDigit36 c = true) (toString36 n).
Proof.
  intros Hn. unfold toString36, toStringRadix.
  destruct (n <? 0) eqn:E; [apply Z.ltb_lt in E; lia|].
  apply digitsRadix_digit36; [assumption | constructor].
Qed.

Lemma parse_toString36 n : 0 <= n -> parseRadix 36 (toString36 n) = n.
Proof.
  intros Hn. unfold parseRadix, toString36, toStringRadix.
  destruct (n <? 0) eqn:E; [apply Z.ltb_lt in E; lia|].
  rewrite parse_digitsRadix by (apply log2_fuel; assumption). reflexivity.
Qed.

Lemma toInt32_range x : - 2 ^ 31 <= toInt32 x < 2 ^ 31.
Proof.
  unfold toInt32.
  assert (0 <= (x + 2 ^ 31) mod 2 ^ 32 < 2 ^ 32) by (apply Z.mod_pos_bound; lia).
  lia.
Qed.

Lemma band_diag x : band x x = toInt32 x.
Proof. unfold band. apply Z.land_diag. Qed.

End Numerals.

(** ** Duration buckets *)

Section DurationFacts.

Import Duration.

(** C6. [getDurationBucket] takes the elapsed time in milliseconds and
    classifies the whole seconds [s] in it by half-open, lower-inclusive
    intervals: [s < 10] gives 0-10s, [10 <= s < 30] gives 10-30s,
    [30 <= s < 60] gives 30-60s, [60 <= s < 300] gives 1-5m,
    [300 <= s < 600] gives 5-10m, [600 <= s < 1800] gives 10-30m,
    [1800 <= s < 3600] gives 30-60m and [3600 <= s] gives 60m+; so 5 s,
    10 s, 45 s and 7200 s fall in 0-10s, 10-30s, 30-60s and 60m+. *)
Theorem duration_bucket_intervals (duration : Z) :
  let s := duration / 1000 in
  (s < 10 -> getDurationBucket duration = "0-10s"%string) /\
  (10 <= s < 30 -> getDurationBucket duration = "10-30s"%string) /\
  (30 <= s < 60 -> getDurationBucket duration = "30-60s"%string) /\
  (60 <= s < 300 -> getDurationBucket duration = "1-5m"%string) /\
  (300 <= s < 600 -> getDurationBucket duration = "5-10m"%string) /\
  (600 <= s < 1800 -> getDurationBucket duration = "10-30m"%string) /\
  (1800 <= s < 3600 -> getDurationBucket duration = "30-60m"%string) /\
  (3600 <= s -> getDurationBucket duration = "60m+"%string) /\
  getDurationBucket (5 * 1000) = "0-10s"%string /\
  getDurationBucket (10 * 1000) = "10-30s"%string /\
  getDurationBucket (45 * 1000) = "30-60s"%string /\
  getDurationBucket (7200 * 1000) = "60m+"%string.
Proof.
  intros s. unfold getDurationBucket. fold s.
  repeat split; try reflexivity; intros H;
    repeat match goal with
           | |- context [?a <? ?b] =>
               destruct (Z.ltb_spec a b); try lia; try reflexivity
           end.
Qed.

Lemma duration_bucket_intervals_witness :
  30 <= 45999 / 1000 < 60 /\ getDurationBucket 45999 = "30-60s"%string.
Proof.
  split.
  - vm_compute. split; [discriminate | reflexivity].
  - apply (proj1 (proj2 (proj2 (duration_bucket_intervals 45999)))).
    vm_compute. split; [discriminate | reflexivity].
Defined.

End DurationFacts.

(** ** The pseudo-user-id *)

Section FingerprintFacts.

Import Fingerprint Samples.

Lemma hashStep_range h c : - 2 ^ 31 <= hashStep h c < 2 ^ 31.
Proof. unfold hashStep. rewrite band_diag. apply toInt32_range. Qed.

Lemma hashString_from_range s : forall h,
  - 2 ^ 31 <= h < 2 ^ 31 -> - 2 ^ 31 <= fold_left hashStep s h < 2 ^ 31.
Proof.
  induction s as [|c s IH]; intros h Hh; simpl; [exact Hh|].
  apply IH, hashStep_range.
Qed.

Lemma hashString_range s : - 2 ^ 31 <= hashString s < 2 ^ 31.
Proof. apply hashString_from_range. lia. Qed.

Lemma fingerprint_sameAttributes b1 b2 :
  sameAttributes b1 b2 -> fingerprint b1 = fingerprint b2.
Proof.
  intros (Hua & Hl & Hp & (Hw & Hh) & Hc & Htz & Hck & Hd).
  unfold fingerprint. congruence.
Qed.

(** C10. Two browsers that agree on the eight collected attributes (user
    agent, language, platform, screen size, colour depth, time zone,
    cookies-enabled flag, do-not-track flag) get the same fingerprint and so
    the same pseudo-user-id, whatever else differs between them (clock,
    random source, local storage); and the fingerprint is the base-36
    numeral, in the digits 0-9 and a-z, of a non-negative integer (at most
    2^31), which reading the numeral back returns. *)
Theorem fingerprint_deterministic_base36 (b1 b2 : Browser) :
  sameAttributes b1 b2 ->
  getBrowserFingerprint b1 = getBrowserFingerprint b2 /\
  userIdOf b1 = userIdOf b2 /\
  exists n : Z,
    0 <= n <= 2 ^ 31 /\
    getBrowserFingerprint b1 = toString36 n /\
    Forall (fun c => isDigit36 c = true) (getBrowserFingerprint b1) /\
    parseRadix 36 (getBrowserFingerprint b1) = n.
Proof.
  intros Hsame. apply fingerprint_sameAttributes in Hsame.
  unfold userIdOf, getBrowserFingerprint. rewrite Hsame.
  split; [reflexivity|]. split; [reflexivity|].
  set (hash := hashString (stringifyObject (fingerprint b2))).
  pose proof (hashString_range (stringifyObject (fingerprint b2))) as Hr. fold hash in Hr.
  exists (Z.abs hash). repeat split.
  - apply Z.abs_nonneg.
  - lia.
  - apply toString36_digits, Z.abs_nonneg.
  - apply parse_toString36, Z.abs_nonneg.
Qed.

Example desktop_fingerprintString :
  stringifyObject (fingerprint desktop)
  = lit "{" ++ [34] ++ lit "userAgent" ++ [34] ++ lit ":" ++ [34]
      ++ lit "Mozilla/5.0 (X11; Linux x86_64)" ++ [34] ++ lit "," ++ [34]
      ++ lit "language" ++ [34] ++ lit ":" ++ [34] ++ lit "en-US" ++ [34] ++ lit ","
      ++ [34] ++ lit "platform" ++ [34] ++ lit ":" ++ [34] ++ lit "Linux x86_64" ++ [34]
      ++ lit "," ++ [34] ++ lit "screen" ++ [34] ++ lit ":" ++ [34] ++ lit "1920x1080"
      ++ [34] ++ lit "," ++ [34] ++ lit "colorDepth" ++ [34] ++ lit ":24,"
      ++ [34] ++ lit "timezone" ++ [34] ++ lit ":" ++ [34] ++ lit "Europe/Paris" ++ [34]
      ++ lit "," ++ [34] ++ lit "cookiesEnabled" ++ [34] ++ lit ":true,"
      ++ [34] ++ lit "doNotTrack" ++ [34] ++ lit ":null}".
Proof. vm_compute. reflexivity. Qed.

Lemma fingerprint_deterministic_base36_witness :
  sameAttributes desktop desktopLater /\
  getBrowserFingerprint desktop = getBrowserFingerprint desktopLater.
Proof.
  assert (H : sameAttributes desktop desktopLater).
  { unfold sameAttributes. simpl. repeat split; reflexivity. }
  split; [exact H|].
  exact (proj1 (fingerprint_deterministic_base36 desktop desktopLater H)).
Defined.

End FingerprintFacts.

(** ** Concurrent increments *)

Section CounterFacts.

Import Counter.

Lemma orZero_Some v : orZero (Some v) = v.
Proof. unfold orZero. destruct (Z.eqb_spec v 0); congruence. Qed.

Lemma doneCount_insert_done (ps : list Phase) : forall (i : nat) p,
  ps !! i = Some p -> isDone p = false ->
  doneCount (<[i := Done]> ps) = S (doneCount ps).
Proof.
  unfold doneCount.
  induction ps as [|q ps IH]; intros i p Hi Hp; [discriminate|].
  destruct i as [|i]; simpl in *.
  - injection Hi as ->. rewrite Hp. reflexivity.
  - destruct (isDone q); simpl; erewrite IH; eauto.
Qed.

Lemma doneCount_insert_snapshot (ps : list Phase) : forall (i : nat) p c,
  ps !! i = Some p -> isDone p = false ->
  doneCount (<[i := Snapshot c]> ps) = doneCount ps.
Proof.
  unfold doneCount.
  induction ps as [|q ps IH]; intros i p c Hi Hp; [discriminate|].
  destruct i as [|i]; simpl in *.
  - injection Hi as ->. rewrite Hp. reflexivity.
  - destruct (isDone q); simpl; erewrite IH; eauto.
Qed.

Lemma doneCount_allDone (ps : list Phase) :
  forallb isDone ps = true -> doneCount ps = length ps.
Proof.
  unfold doneCount. induction ps as [|q ps IH]; simpl; [reflexivity|].
  intros H. apply andb_true_iff in H as [Hq Hps].
  rewrite Hq. simpl. rewrite IH by assumption. reflexivity.
Qed.

Lemma doneCount_pending (ss : list Strategy) : doneCount (List.map Pending ss) = 0%nat.
Proof.
  unfold doneCount. induction ss as [|s ss IH]; simpl; [reflexivity|]. exact IH.
Qed.

Lemma step_counted path base sys i :
  counted path base sys -> counted path base (step path sys i).
Proof.
  unfold counted, counterValue, step. intros H.
  destruct (callers sys !! i) as [p|] eqn:Hi; [|exact H].
  destruct p as [[|]|current|]; simpl.
  - rewrite lookup_insert_eq, orZero_Some.
    erewrite doneCount_insert_done by eauto. lia.
  - erewrite doneCount_insert_snapshot by eauto. exact H.
  - destruct (decide (store sys !! path = current)) as [He|He]; simpl.
    + rewrite lookup_insert_eq, orZero_Some. unfold increment.
      erewrite doneCount_insert_done by eauto. rewrite <- He. lia.
    + erewrite doneCount_insert_snapshot by eauto. exact H.
  - exact H.
Qed.

Lemma run_counted path base schedule : forall sys,
  counted path base sys -> counted path base (run path schedule sys).
Proof.
  unfold run. induction schedule as [|i schedule IH]; intros sys H; simpl; [exact H|].
  apply IH, step_counted, H.
Qed.

Lemma step_length path sys i : length (callers (step path sys i)) = length (callers sys).
Proof.
  unfold step. destruct (callers sys !! i) as [[[|]|current|]|]; simpl;
    try destruct (decide _); simpl; rewrite ?length_insert; reflexivity.
Qed.

Lemma run_length path schedule : forall sys,
  length (callers (run path schedule sys)) = length (callers sys).
Proof.
  unfold run. induction schedule as [|i schedule IH]; intros sys; simpl; [reflexivity|].
  rewrite IH. apply step_length.
Qed.

(** A caller that is done stays done, whoever takes a step. *)
Lemma step_keeps_done path sys i (j : nat) :
  callers sys !! j = Some Done -> callers (step path sys i) !! j = Some Done.
Proof.
  intros Hj. unfold step.
  destruct (callers sys !! i) as [p|] eqn:Hi; [|exact Hj].
  destruct (decide (i = j)) as [->|Hne].
  - rewrite Hj in Hi. injection Hi as <-. exact Hj.
  - destruct p as [[|]|current|]; simpl;
      try destruct (decide _); simpl; rewrite ?list_lookup_insert_ne by assumption;
      exact Hj.
Qed.

(** A caller that takes two steps in a row is done. *)
Lemma two_steps_done path sys (i : nat) :
  (i < length (callers sys))%nat ->
  callers (step path (step path sys i) i) !! i = Some Done.
Proof.
  intros Hlt.
  destruct (lookup_lt_is_Some_2 (callers sys) i Hlt) as [p Hp].
  assert (Hins : forall q, <[i := q]> (callers sys) !! i = Some q).
  { intros q. apply list_lookup_insert_eq. exact Hlt. }
  assert (Hdone : forall s, callers s !! i = Some Done -> callers (step path s i) !! i = Some Done).
  { intros s. apply step_keeps_done. }
  destruct p as [[|]|current|].
  - apply Hdone. unfold step. rewrite Hp. simpl. apply Hins.
  - unfold step at 2. rewrite Hp. unfold step. simpl. rewrite Hins.
    destruct (decide (store sys !! path = store sys !! path)); [|congruence].
    simpl. rewrite list_insert_insert_eq. apply Hins.
  - unfold step at 2. rewrite Hp.
    destruct (decide (store sys !! path = current)); simpl.
    + apply Hdone. simpl. apply Hins.
    + unfold step. simpl. rewrite Hins.
      destruct (decide (store sys !! path = store sys !! path)); [|congruence].
      simpl. rewrite list_insert_insert_eq. apply Hins.
  - apply Hdone, Hdone, Hp.
Qed.

Lemma sequential_succ n : sequential (S n) = sequential n ++ [n; n].
Proof.
  unfold sequential. rewrite seq_S, flat_map_app. simpl. reflexivity.
Qed.

Lemma sequential_done path sys : forall n,
  (n <= length (callers sys))%nat ->
  forall i : nat, (i < n)%nat -> callers (run path (sequential n) sys) !! i = Some Done.
Proof.
  induction n as [|n IH]; intros Hn i Hi; [lia|].
  rewrite sequential_succ. unfold run. rewrite fold_left_app. fold (run path (sequential n) sys).
  simpl. destruct (decide (i = n)) as [->|Hne].
  - apply two_steps_done. rewrite run_length. lia.
  - apply step_keeps_done, step_keeps_done, IH; lia.
Qed.

Lemma sequential_allDone path sys :
  allDone (run path (sequential (length (callers sys))) sys) = true.
Proof.
  unfold allDone. apply forallb_forall. intros p Hp.
  apply list_elem_of_In, list_elem_of_lookup in Hp as [i Hi].
  pose proof (lookup_lt_Some _ _ _ Hi) as Hlt. rewrite run_length in Hlt.
  rewrite sequential_done in Hi by lia. injection Hi as <-. reflexivity.
Qed.

(** C9. [N] independent callers each increment the counter of one tool and
    action once, each by the atomic increment or by the optimistic
    transaction with the update function of the source.  Some interleaving
    lets all of them complete, and after every interleaving in which all of
    them have completed the stored counter is its initial value plus
    exactly [N]. *)
Theorem concurrent_increments_sum (toolId action : jsstring)
    (initial : gmap (list Z) Z) (strategies : list Strategy) :
  let path := toolStatsPath toolId action in
  let sys0 := start initial strategies in
  (exists schedule, allDone (run path schedule sys0) = true) /\
  (forall schedule,
     allDone (run path schedule sys0) = true ->
     counterValue path (run path schedule sys0)
     = counterValue path sys0 + Z.of_nat (length strategies)).
Proof.
  intros path sys0. split.
  - exists (sequential (length (callers sys0))). apply sequential_allDone.
  - intros schedule Hall.
    assert (H0 : counted path (counterValue path sys0) sys0).
    { unfold counted, sys0, start. simpl. rewrite doneCount_pending. lia. }
    pose proof (run_counted path _ schedule sys0 H0) as H. unfold counted in H.
    rewrite H. unfold allDone in Hall. rewrite (doneCount_allDone _ Hall).
    rewrite run_length. unfold sys0, start. simpl. rewrite length_map. reflexivity.
Qed.

End CounterFacts.

(** ** The shell document *)

Section ViewerFacts.

Import Viewer Samples.

Example utcDate_sample : utcDate 1700000000000 = lit "2023-11-14".
Proof. vm_compute. reflexivity. Qed.

Lemma escapeUnit_no_delimiter c : Forall (fun u => isDelimiter u = false) (escapeUnit c).
Proof.
  unfold escapeUnit.
  destruct (Z.eqb_spec c 38); [repeat constructor|].
  destruct (Z.eqb_spec c 160); [repeat constructor|].
  destruct (Z.eqb_spec c 60); [repeat constructor|].
  destruct (Z.eqb_spec c 62); [repeat constructor|].
  constructor; [|constructor]. unfold isDelimiter.
  destruct (Z.eqb_spec c 60); [contradiction|].
  destruct (Z.eqb_spec c 62); [contradiction|]. reflexivity.
Qed.

Lemma serializeText_no_delimiter s : Forall (fun u => isDelimiter u = false) (serializeText s).
Proof.
  unfold serializeText. induction s as [|c s IH]; simpl; [constructor|].
  apply Forall_app. split; [apply escapeUnit_no_delimiter | exact IH].
Qed.

Lemma decodeText_plain c s : c <> 38 -> decodeText (c :: s) = c :: decodeText s.
Proof. intros Hc. cbn [decodeText]. destruct (Z.eqb_spec c 38); [contradiction | reflexivity]. Qed.

Lemma decode_serializeText s : decodeText (serializeText s) = s.
Proof.
  unfold serializeText. induction s as [|c s IH]; [reflexivity|].
  cbn [flat_map]. unfold escapeUnit.
  destruct (Z.eqb_spec c 38) as [->|H1].
  { change (decodeText (38 :: 97 :: 109 :: 112 :: 59 :: flat_map escapeUnit s) = 38 :: s).
    transitivity (38 :: decodeText (flat_map escapeUnit s)); [reflexivity | now rewrite IH]. }
  destruct (Z.eqb_spec c 160) as [->|H2].
  { change (decodeText (38 :: 110 :: 98 :: 115 :: 112 :: 59 :: flat_map escapeUnit s) = 160 :: s).
    transitivity (160 :: decodeText (flat_map escapeUnit s)); [reflexivity | now rewrite IH]. }
  destruct (Z.eqb_spec c 60) as [->|H3].
  { change (decodeText (38 :: 108 :: 116 :: 59 :: flat_map escapeUnit s) = 60 :: s).
    transitivity (60 :: decodeText (flat_map escapeUnit s)); [reflexivity | now rewrite IH]. }
  destruct (Z.eqb_spec c 62) as [->|H4].
  { change (decodeText (38 :: 103 :: 116 :: 59 :: flat_map escapeUnit s) = 62 :: s).
    transitivity (62 :: decodeText (flat_map escapeUnit s)); [reflexivity | now rewrite IH]. }
  change (decodeText (c :: flat_map escapeUnit s) = c :: s).
  rewrite decodeText_plain by assumption. now rewrite IH.
Qed.

Lemma escapeHtml_no_delimiter v : Forall (fun u => isDelimiter u = false) (escapeHtml v).
Proof.
  unfold escapeHtml. destruct (truthy v); simpl; [apply serializeText_no_delimiter | constructor].
Qed.

Lemma decode_escapeHtml v :
  decodeText (escapeHtml v) = if truthy v then toStr v else [].
Proof.
  unfold escapeHtml. destruct (truthy v); simpl; [apply decode_serializeText | reflexivity].
Qed.

(** The tool's script block comes before the isolation script in the text
    of the shell document. *)
Lemma toolHtml_script_order td :
  toolHtml td
  = (shellHead ++ escapeHtml (name td) ++ shellStyles ++ toolStyles td ++ shellBodyOpen
       ++ header td ++ shellBeforeContent ++ toStr (hostedHtml td) ++ shellAfterContent)
    ++ toolScript td ++ shellBeforeIsolation ++ isolationScript ++ shellTail.
Proof. unfold toolHtml. rewrite <- !app_assoc. reflexivity. Qed.

(** C5. In the shell document the tool's name and description appear only
    through [escapeHtml], in the title and in the header, while the hosted
    style, markup and script strings are spliced in as they are.  The escaped
    text holds no markup delimiter, and a reader of text content gets the
    original text back from it: a name with markup in it shows as literal
    text. *)
Theorem header_text_escaped_payload_raw (td : ToolData) :
  toolHtml td
  = shellHead ++ escapeHtml (name td) ++ shellStyles
      ++ (if truthy (hostedCss td) then toStr (hostedCss td) else [])
      ++ shellBodyOpen ++ header td ++ shellBeforeContent
      ++ toStr (hostedHtml td)
      ++ shellAfterContent
      ++ (if truthy (hostedJs td)
          then lit "<script>" ++ toStr (hostedJs td) ++ lit "</script>" else [])
      ++ shellBeforeIsolation ++ isolationScript ++ shellTail
  /\ header td
     = (if isFalse (showHeader td) then []
        else headerOpen ++ escapeHtml (name td) ++ headerAfterTitle
               ++ (if truthy (description td)
                   then descriptionOpen ++ escapeHtml (description td) ++ descriptionClose
                   else [])
               ++ headerClose)
  /\ (forall text : jsval,
        Forall (fun u => isDelimiter u = false) (escapeHtml text) /\
        decodeText (escapeHtml text) = if truthy text then toStr text else [])
  /\ escapeHtml (name markupTool) = lit "&lt;script&gt;alert(1)&lt;/script&gt;"
  /\ escapeHtml (description markupTool) = lit "fast &amp; &lt;b&gt;free&lt;/b&gt;".
Proof.
  split; [reflexivity|]. split.
  { unfold header. destruct (isFalse (showHeader td)); reflexivity. }
  split.
  { intros text. split; [apply escapeHtml_no_delimiter | apply decode_escapeHtml]. }
  split; vm_compute; reflexivity.
Qed.







End ViewerFacts.

(** ** The isolation script *)

Section SandboxFacts.

Import Sandbox Samples.

Lemma scripts_tool_first td :
  Viewer.truthy (Viewer.hostedJs td) = true -> scripts td = [ToolScript; IsolationScript].
Proof. intros H. unfold scripts. rewrite H. reflexivity. Qed.

(** While its script block runs, the tool's code observes what it would
    observe in a window that is never isolated. *)
Lemma tool_script_unisolated td behaviour w :
  Viewer.truthy (Viewer.hostedJs td) = true ->
  fst (snd (loadDocument td behaviour w)) = snd (execAll behaviour w).
Proof.
  intros H. unfold loadDocument. rewrite (scripts_tool_first td H). simpl.
  destruct (execAll behaviour w) as [w1 o1]. simpl.
  destruct (runHandlers _ _) as [w2 o2]. simpl. apply app_nil_r.
Qed.

(** Once the isolation script has run in a framed window, no command
    reaches the host page. *)
Lemma isolated_exec c w :
  parent w <> FrameWindow ->
  Forall (fun o => exposes o = false) (snd (exec c (isolation w))).
Proof.
  intros Hp. unfold isolation.
  destruct (parent w) eqn:E; [| contradiction |];
    destruct c; simpl; repeat constructor.
Qed.


End SandboxFacts.

(** ** The session tracker *)

Section TrackerFacts.

Import Tracker Samples.

Variable h : Host.

Ltac by_cases_on_methods :=
  unfold trackEvent, updateLastActivity, endSession, trackToolInteraction,
    trackPageView, startSession, activityTick, heartbeatTick;
  repeat match goal with
         | |- context [if ?b then _ else _] => destruct b
         end;
  simpl; try reflexivity.

(** *** What the handlers leave alone *)

Lemma dispatch_sessionId t ev s : sessionId (fst (dispatch h t ev s)) = sessionId s.
Proof. destruct ev as [|[|]| | | | |]; simpl; by_cases_on_methods. Qed.

Lemma dispatch_heartbeatInterval t ev s :
  heartbeatInterval (fst (dispatch h t ev s)) = heartbeatInterval s.
Proof. destruct ev as [|[|]| | | | |]; simpl; by_cases_on_methods. Qed.


Lemma fire_sessionId d k s : sessionId (fst (fire h d k s)) = sessionId s.
Proof. destruct k; reflexivity. Qed.


Lemma advance_sessionId fuel t : forall s,
  sessionId (fst (advance h fuel t s)) = sessionId s.
Proof.
  induction fuel as [|fuel IH]; intros s; simpl; [reflexivity|].
  destruct (nextTimer s) as [[d k]|]; [|reflexivity].
  destruct (d <=? t); [|reflexivity].
  destruct (fire h d k s) as [s1 ws1] eqn:Hf.
  specialize (IH s1). destruct (advance h fuel t s1) as [s2 ws2]. simpl in *.
  rewrite IH. change s1 with (fst (s1, ws1)). rewrite <- Hf. apply fire_sessionId.
Qed.


Lemma step_sessionId acc e : sessionId (fst (step h acc e)) = sessionId (fst acc).
Proof.
  destruct acc as [s log], e as [t ev]. unfold step.
  destruct (advanceTo h t s) as [s1 ws1] eqn:Ha.
  destruct (dispatch h t ev s1) as [s2 ws2] eqn:Hd. simpl.
  change s2 with (fst (s2, ws2)). rewrite <- Hd, dispatch_sessionId.
  change s1 with (fst (s1, ws1)). rewrite <- Ha. apply advance_sessionId.
Qed.


Lemma run_app trace1 trace2 acc :
  run h (trace1 ++ trace2) acc = run h trace2 (run h trace1 acc).
Proof. unfold run. apply fold_left_app. Qed.

Lemma run_sessionId trace : forall acc, sessionId (fst (run h trace acc)) = sessionId (fst acc).
Proof.
  induction trace as [|e trace IH]; intros acc; simpl; [reflexivity|].
  unfold run in *. simpl. rewrite IH. apply step_sessionId.
Qed.






(** *** Paths *)

Lemma lit_app_cons (a : ascii) (rest : string) (s : jsstring) :
  lit (String a rest) ++ s = Z.of_N (N_of_ascii a) :: (lit rest ++ s).
Proof. reflexivity. Qed.

Lemma free_form_paths_differ s :
  lit "tool_interactions" <> sessionPath s /\ lit "events" <> sessionPath s.
Proof. unfold sessionPath. rewrite lit_app_cons. split; discriminate. Qed.

Lemma attempt_incl ws w : In w (attempt h ws) -> In w ws.
Proof.
  induction ws as [|w0 ws IH]; simpl; [tauto|].
  intros [->|Hin]; [left; reflexivity|].
  destruct (rejects h w0); [contradiction | right; apply IH, Hin].
Qed.

Lemma attempt_head w ws : exists rest, attempt h (w :: ws) = w :: rest.
Proof. simpl. eexists. reflexivity. Qed.

(** *** The status of the session record *)

Lemma onlyEnded_nil s : onlyEnded s [].
Proof. intros w v []. Qed.

Lemma onlyEnded_app s ws1 ws2 :
  onlyEnded s ws1 -> onlyEnded s ws2 -> onlyEnded s (ws1 ++ ws2).
Proof.
  intros H1 H2 w v Hin. apply in_app_or in Hin as [Hin|Hin]; eauto.
Qed.

Lemma onlyEnded_attempt s ws : onlyEnded s ws -> onlyEnded s (attempt h ws).
Proof. intros H w v Hin. apply H, attempt_incl, Hin. Qed.

Lemma onlyEnded_sessionId s s' ws :
  sessionId s = sessionId s' -> onlyEnded s ws -> onlyEnded s' ws.
Proof.
  intros Hid H w v Hin Hv. apply (H w v Hin).
  unfold statusWritten, sessionPath in *. rewrite Hid. exact Hv.
Qed.

Ltac status_cases :=
  intros w v Hin Hv; simpl in Hin;
  repeat match goal with
         | H : _ \/ _ |- _ => destruct H as [H|H]
         | H : False |- _ => destruct H
         end;
  subst w; unfold statusWritten in Hv; simpl w_path in Hv; simpl w_op in Hv;
  unfold fieldsOf in Hv; simpl w_op in Hv;
  case_bool_decide; try (destruct Hv; fail).

Lemma endSession_onlyEnded t s : onlyEnded s (snd (endSession h t s)).
Proof.
  unfold endSession. destruct (allAccepted h _); cbn [snd];
    [|apply onlyEnded_attempt]; status_cases;
    vm_compute in Hv; destruct Hv as [<-|[]]; reflexivity.
Qed.

Lemma trackPageView_onlyEnded t s : onlyEnded s (snd (trackPageView h t s)).
Proof.
  unfold trackPageView. cbn [snd]. apply onlyEnded_attempt. status_cases;
    vm_compute in Hv; destruct Hv.
Qed.

Lemma trackToolInteraction_onlyEnded t toolId action metadata s :
  onlyEnded s (snd (trackToolInteraction h t toolId action metadata s)).
Proof.
  pose proof (free_form_paths_differ s) as [Hne _].
  unfold trackToolInteraction. destruct (allAccepted h _); cbn [snd];
    [|apply onlyEnded_attempt]; status_cases; try (destruct Hv; fail);
    unfold sessionPath in *; simpl sessionId in *; congruence.
Qed.

Lemma trackEvent_onlyEnded t eventName data s :
  onlyEnded s (snd (trackEvent h t eventName data s)).
Proof.
  pose proof (free_form_paths_differ s) as [_ Hne].
  unfold trackEvent. cbn [snd]. status_cases. congruence.
Qed.

Lemma updateLastActivity_onlyEnded t s s' : onlyEnded s' (snd (updateLastActivity h t s)).
Proof. unfold updateLastActivity. cbn [snd]. status_cases. Qed.

Lemma dispatch_onlyEnded t ev s : onlyEnded s (snd (dispatch h t ev s)).
Proof.
  destruct ev as [|[|]| | | | |]; cbn [dispatch].
  - apply onlyEnded_nil.
  - apply trackEvent_onlyEnded.
  - pose proof (trackEvent_onlyEnded t (lit "page_visible") [] s) as H1.
    destruct (trackEvent h t (lit "page_visible") [] s) as [s1 ws1].
    pose proof (updateLastActivity_onlyEnded t (setLastActivity t s1) s) as H2.
    destruct (updateLastActivity h t (setLastActivity t s1)) as [s2 ws2].
    apply onlyEnded_app; assumption.
  - apply endSession_onlyEnded.
  - apply trackPageView_onlyEnded.
  - apply trackToolInteraction_onlyEnded.
  - apply endSession_onlyEnded.
  - apply trackEvent_onlyEnded.
Qed.

Lemma fire_onlyEnded d k s s' : onlyEnded s' (snd (fire h d k s)).
Proof.
  destruct k; cbn [fire].
  - apply updateLastActivity_onlyEnded.
  - unfold heartbeatTick. cbn [snd]. status_cases.
Qed.

Lemma advance_onlyEnded fuel t s' : forall s, onlyEnded s' (snd (advance h fuel t s)).
Proof.
  induction fuel as [|fuel IH]; intros s; simpl; [apply onlyEnded_nil|].
  destruct (nextTimer s) as [[d k]|]; [|apply onlyEnded_nil].
  destruct (d <=? t); [|apply onlyEnded_nil].
  pose proof (fire_onlyEnded d k s s') as Hf.
  destruct (fire h d k s) as [s1 ws1].
  specialize (IH s1). destruct (advance h fuel t s1) as [s2 ws2]. simpl in *.
  apply onlyEnded_app; assumption.
Qed.

Lemma step_onlyEnded s' acc e :
  sessionId (fst acc) = sessionId s' ->
  onlyEnded s' (snd acc) -> onlyEnded s' (snd (step h acc e)).
Proof.
  destruct acc as [s log], e as [t ev]. simpl. intros Hid Hlog. unfold step.
  pose proof (advance_onlyEnded (dueCount t s) t s' s) as Ha.
  pose proof (advance_sessionId (dueCount t s) t s) as Hs1.
  fold (advanceTo h t s) in Ha, Hs1.
  destruct (advanceTo h t s) as [s1 ws1]. simpl in Ha, Hs1.
  pose proof (dispatch_onlyEnded t ev s1) as Hd.
  destruct (dispatch h t ev s1) as [s2 ws2]. simpl in *.
  apply onlyEnded_app; [exact Hlog|]. apply onlyEnded_app; [exact Ha|].
  apply (onlyEnded_sessionId s1); [congruence | exact Hd].
Qed.

Lemma run_onlyEnded s' trace : forall acc,
  sessionId (fst acc) = sessionId s' ->
  onlyEnded s' (snd acc) -> onlyEnded s' (snd (run h trace acc)).
Proof.
  induction trace as [|e trace IH]; intros acc Hid Hlog; [exact Hlog|].
  unfold run in *. simpl. apply IH.
  - rewrite step_sessionId. exact Hid.
  - apply step_onlyEnded; assumption.
Qed.

(** C3 (amended). The tracker keeps no status of its own and guards no
    method.  On the session record the status is written as active by
    [startSession], which only [init] calls, and after that only ever as
    ended: it never goes back.  But [endSession] issues its update of the
    session record, with the status ended, every time it is called, and
    [trackPageView], [trackToolInteraction] and the activity update issue
    their first write whatever was called before. *)
Theorem status_never_goes_back (b : Fingerprint.Browser)
    (trace : list (Z * Event)) :
  let s0 := fst (Tracker.init h b) in
  (exists w rest, snd (startSession h (Fingerprint.dateNow b) s0) = w :: rest /\
                  In (VStr (lit "active")) (statusWritten s0 w)) /\
  (forall w v, In w (snd (run h trace (s0, []))) ->
               In v (statusWritten s0 w) -> v = VStr (lit "ended")) /\
  (forall t s, exists w rest, snd (endSession h t s) = w :: rest /\
                              w_time w = t /\
                              In (VStr (lit "ended")) (statusWritten s w)) /\
  (forall t s, exists w rest, snd (trackPageView h t s) = w :: rest /\ w_time w = t) /\
  (forall t toolId action metadata s,
     exists w rest, snd (trackToolInteraction h t toolId action metadata s) = w :: rest /\
                    w_time w = t) /\
  (forall t s, exists w rest, snd (updateLastActivity h t s) = w :: rest /\ w_time w = t).
Proof.
  intros s0. split.
  { unfold startSession. simpl snd. eexists. eexists. split; [reflexivity|].
    unfold statusWritten. simpl w_path. rewrite bool_decide_true by reflexivity.
    cbn [fieldsOf w_op]. apply in_map_iff.
    exists ("status"%string, VStr (lit "active")). split; [reflexivity|].
    apply filter_In. split; [|reflexivity].
    do 3 right. apply in_or_app. right. do 2 right. left. reflexivity. }
  split.
  { apply (run_onlyEnded s0 trace (s0, [])); [reflexivity | apply onlyEnded_nil]. }
  split.
  { intros t s. unfold endSession.
    destruct (allAccepted h _); simpl snd; eexists; eexists;
      (split; [reflexivity|]); (split; [reflexivity|]);
      unfold statusWritten; simpl w_path; rewrite bool_decide_true by reflexivity;
      vm_compute; left; reflexivity. }
  split.
  { intros t s. unfold trackPageView. simpl snd. eexists. eexists. split; reflexivity. }
  split.
  { intros t toolId action metadata s. unfold trackToolInteraction.
    destruct (allAccepted h _); simpl snd; eexists; eexists; split; reflexivity. }
  intros t s. unfold updateLastActivity. simpl snd. eexists. eexists. split; reflexivity.
Qed.

(** *** The heartbeat *)

Lemma heartbeatWrite_sessionId s s' d :
  sessionId s = sessionId s' -> heartbeatWrite s d = heartbeatWrite s' d.
Proof. intros H. unfold heartbeatWrite, heartbeatPath. rewrite H. reflexivity. Qed.

Lemma nextTimer_cases s d k :
  nextTimer s = Some (d, k) ->
  match k with
  | ActivityTimer =>
      activityTimeout s = Some d /\
      (forall b, heartbeatInterval s = Some b -> d < b)
  | HeartbeatTimer =>
      heartbeatInterval s = Some d /\
      (forall a, activityTimeout s = Some a -> d <= a)
  end.
Proof.
  unfold nextTimer.
  destruct (activityTimeout s) as [a|], (heartbeatInterval s) as [b|]; try discriminate.
  - destruct (Z.ltb_spec a b); intros [= <- <-]; split; try reflexivity.
    + intros ? [= <-]. assumption.
    + intros ? [= <-]. assumption.
  - intros [= <- <-]. split; [reflexivity | discriminate].
  - intros [= <- <-]. split; [reflexivity | discriminate].
Qed.

Lemma ticks_after d t :
  d + 30000 <= t -> Z.to_nat ((t - d) / 30000) = S (Z.to_nat ((t - (d + 30000)) / 30000)).
Proof.
  intros Hle.
  assert (Hq : (t - (d + 30000)) / 30000 = (t - d) / 30000 - 1).
  { replace (t - (d + 30000)) with ((t - d) + (-1) * 30000) by lia.
    rewrite Z.div_add by lia. lia. }
  assert (Hp : 1 <= (t - d) / 30000) by (apply Z.div_le_lower_bound; lia).
  rewrite Hq. lia.
Qed.

(** Every timer that fires takes one off the number of callbacks due. *)
Lemma dueCount_fire t s d k :
  nextTimer s = Some (d, k) -> d <= t ->
  dueCount t s = S (dueCount t (fst (fire h d k s))).
Proof.
  intros Hn Hd. apply nextTimer_cases in Hn. unfold dueCount.
  destruct k; destruct Hn as [Hk _]; simpl; rewrite Hk.
  - destruct (Z.leb_spec d t); [reflexivity | lia].
  - destruct (Z.leb_spec d t); [|lia].
    destruct (Z.leb_spec (d + 30000) t).
    + rewrite (ticks_after d t) by assumption. lia.
    + rewrite Z.div_small by lia. simpl. lia.
Qed.

Lemma dueCount_zero t s b :
  heartbeatInterval s = Some b -> dueCount t s = 0%nat -> t < b.
Proof.
  unfold dueCount. intros ->. destruct (Z.leb_spec b t); [|lia].
  destruct (activityTimeout s) as [a|]; [destruct (a <=? t)|]; simpl; lia.
Qed.

Lemma dueCount_none_due t s d k :
  nextTimer s = Some (d, k) -> t < d -> dueCount t s = 0%nat.
Proof.
  intros Hn Hlt. pose proof (nextTimer_cases s d k Hn) as Hc. unfold dueCount.
  destruct k; destruct Hc as [Hk Hother]; rewrite Hk.
  - destruct (Z.leb_spec d t); [lia|].
    destruct (heartbeatInterval s) as [b|]; [|reflexivity].
    specialize (Hother b eq_refl). destruct (Z.leb_spec b t); [lia | reflexivity].
  - destruct (Z.leb_spec d t); [lia|].
    destruct (activityTimeout s) as [a|]; [|reflexivity].
    specialize (Hother a eq_refl). destruct (Z.leb_spec a t); [lia | reflexivity].
Qed.

(** [advanceTo] has the fuel it needs: no timer is left that is due. *)
Lemma advance_settles t fuel : forall s,
  (dueCount t s <= fuel)%nat -> dueCount t (fst (advance h fuel t s)) = 0%nat.
Proof.
  induction fuel as [|fuel IH]; intros s Hfuel; simpl; [lia|].
  destruct (nextTimer s) as [[d k]|] eqn:Hn.
  - destruct (Z.leb_spec d t) as [Hd|Hd].
    + pose proof (dueCount_fire t s d k Hn Hd) as Hdue.
      destruct (fire h d k s) as [s1 ws1]. simpl in Hdue.
      specialize (IH s1 ltac:(lia)).
      destruct (advance h fuel t s1) as [s2 ws2]. exact IH.
    + simpl. apply (dueCount_none_due t s d k Hn Hd).
  - simpl. unfold nextTimer in Hn. unfold dueCount.
    destruct (activityTimeout s) as [a|], (heartbeatInterval s) as [b|];
      try discriminate; [destruct (a <? b); discriminate | reflexivity].
Qed.

Lemma advanceTo_settled t s d k :
  nextTimer (fst (advanceTo h t s)) = Some (d, k) -> t < d.
Proof.
  intros Hn. pose proof (advance_settles t (dueCount t s) s (le_n _)) as H0.
  fold (advanceTo h t s) in H0.
  destruct (Z.lt_ge_cases t d) as [Hlt|Hge]; [exact Hlt|].
  rewrite (dueCount_fire t _ d k Hn) in H0 by lia. discriminate.
Qed.

(** With fuel for the callbacks due, the time passes up to [t]: the
    heartbeat ticks due by then are written, and the next one is after [t]. *)
Lemma advance_heartbeats fuel t : forall s b,
  heartbeatInterval s = Some b -> (dueCount t s <= fuel)%nat ->
  exists m, 0 <= m /\
    heartbeatInterval (fst (advance h fuel t s)) = Some (b + 30000 * m) /\
    t < b + 30000 * m /\
    forall i, 0 <= i < m ->
      In (heartbeatWrite s (b + 30000 * i)) (snd (advance h fuel t s)).
Proof.
  induction fuel as [|fuel IH]; intros s b Hb Hfuel.
  - exists 0. simpl. rewrite Hb. repeat split; try lia; [f_equal; lia|].
    pose proof (dueCount_zero t s b Hb). lia.
  - simpl. destruct (nextTimer s) as [[d k]|] eqn:Hn.
    2:{ unfold nextTimer in Hn. rewrite Hb in Hn.
        destruct (activityTimeout s) as [a|]; [destruct (a <? b)|]; discriminate. }
    pose proof (nextTimer_cases s d k Hn) as Hc.
    destruct (Z.leb_spec d t) as [Hd|Hd].
    + pose proof (dueCount_fire t s d k Hn Hd) as Hdue.
      pose proof (fire_sessionId d k s) as Hid.
      destruct k; destruct Hc as [Hk Hother].
      * (* the debounce timer fires; the heartbeat is as it was *)
        assert (Hb1 : heartbeatInterval (fst (fire h d ActivityTimer s)) = Some b) by exact Hb.
        destruct (fire h d ActivityTimer s) as [s1 ws1]. simpl in *.
        destruct (IH s1 b Hb1 ltac:(lia)) as (m & Hm & Hnext & Hlt & Hin).
        destruct (advance h fuel t s1) as [s2 ws2]. simpl in *.
        exists m. repeat split; try assumption.
        intros i Hi. apply in_or_app. right.
        rewrite (heartbeatWrite_sessionId s s1) by congruence. apply Hin, Hi.
      * (* a heartbeat tick *)
        assert (d = b) by congruence. subst d.
        assert (Hb1 : heartbeatInterval (fst (fire h b HeartbeatTimer s)) = Some (b + 30000))
          by reflexivity.
        assert (Hw : snd (fire h b HeartbeatTimer s) = [heartbeatWrite s b]) by reflexivity.
        destruct (fire h b HeartbeatTimer s) as [s1 ws1]. simpl in *.
        destruct (IH s1 (b + 30000) Hb1 ltac:(lia)) as (m & Hm & Hnext & Hlt & Hin).
        destruct (advance h fuel t s1) as [s2 ws2]. simpl in *.
        exists (m + 1). split; [lia|]. split; [rewrite Hnext; f_equal; lia|].
        split; [lia|]. intros i Hi. apply in_or_app.
        destruct (Z.eq_dec i 0) as [->|Hne].
        -- left. rewrite Hw. left. f_equal; lia.
        -- right. rewrite (heartbeatWrite_sessionId s s1) by congruence.
           replace (b + 30000 * i) with (b + 30000 + 30000 * (i - 1)) by lia.
           apply Hin. lia.
    + exists 0. simpl. rewrite Hb. repeat split; try lia; [f_equal; lia|].
      destruct k; destruct Hc as [Hk Hother].
      * specialize (Hother b Hb). lia.
      * assert (d = b) by congruence. lia.
Qed.

Lemma advanceTo_ticking s0 t0 t s log :
  ticking s0 t0 (s, log) ->
  ticking s0 t0 (fst (advanceTo h t s), log ++ snd (advanceTo h t s)) /\
  forall j, heartbeatInterval (fst (advanceTo h t s)) = Some (t0 + 30000 * j) ->
            t < t0 + 30000 * j.
Proof.
  intros (Hid & j & Hj & Hb & Hin). simpl in *.
  unfold advanceTo.
  destruct (advance_heartbeats (dueCount t s) t s _ Hb (le_n _))
    as (m & Hm & Hnext & Hlt & Hnew).
  pose proof (advance_sessionId (dueCount t s) t s) as Hid1.
  destruct (advance h (dueCount t s) t s) as [s1 ws1]. simpl in *.
  split.
  - split; [simpl; congruence|]. exists (j + m). simpl. split; [lia|].
    split; [rewrite Hnext; f_equal; lia|].
    intros i Hi. apply in_or_app.
    destruct (Z.lt_ge_cases i j) as [Hlo|Hhi].
    + left. apply Hin. lia.
    + right. rewrite <- (heartbeatWrite_sessionId s s0) by exact Hid.
      replace (t0 + 30000 * i) with (t0 + 30000 * j + 30000 * (i - j)) by lia.
      apply Hnew. lia.
  - intros j' Hj'. rewrite Hnext in Hj'. injection Hj' as Hj'. lia.
Qed.

Lemma step_ticking s0 t0 acc e : ticking s0 t0 acc -> ticking s0 t0 (step h acc e).
Proof.
  destruct acc as [s log], e as [t ev]. intros Ht. unfold step.
  destruct (advanceTo_ticking s0 t0 t s log Ht) as [(Hid & j & Hj & Hb & Hin) _].
  destruct (advanceTo h t s) as [s1 ws1]. simpl in *.
  pose proof (dispatch_sessionId t ev s1) as Hid2.
  pose proof (dispatch_heartbeatInterval t ev s1) as Hb2.
  destruct (dispatch h t ev s1) as [s2 ws2]. simpl in *.
  split; [simpl; congruence|]. exists j. simpl. split; [lia|].
  split; [congruence|]. intros i Hi.
  rewrite app_assoc. apply in_or_app. left. apply Hin, Hi.
Qed.

Lemma run_ticking s0 t0 trace : forall acc,
  ticking s0 t0 acc -> ticking s0 t0 (run h trace acc).
Proof.
  induction trace as [|e trace IH]; intros acc Hacc; [exact Hacc|].
  unfold run in *. simpl. apply IH, step_ticking, Hacc.
Qed.

Lemma init_ticking b :
  ticking (fst (Tracker.init h b)) (Fingerprint.dateNow b) (Tracker.init h b).
Proof.
  split; [reflexivity|]. exists 1. split; [lia|]. split; [reflexivity|]. intros i Hi. lia.
Qed.

(** C4 (amended). From [setupHeartbeat] on, a heartbeat write is issued at
    every 30-second tick for as long as the page's timers run: each tick
    that is due by the time [tEnd] is in the log, whatever the events before
    it were, [endSession] among them.  Nothing clears the interval timer. *)
Theorem heartbeat_every_tick (b : Fingerprint.Browser)
    (trace : list (Z * Event)) (tEnd k : Z) :
  let t0 := Fingerprint.dateNow b in
  1 <= k -> t0 + 30000 * k <= tEnd ->
  let s0 := fst (Tracker.init h b) in
  In {| w_time := t0 + 30000 * k; w_path := heartbeatPath s0;
        w_op := SetValue (VNum (t0 + 30000 * k)) |}
     (snd (runUntil h trace tEnd (Tracker.init h b))).
Proof.
  intros t0 Hk Hend s0. unfold runUntil.
  pose proof (run_ticking s0 t0 trace _ (init_ticking b)) as Hrun.
  destruct (run h trace (Tracker.init h b)) as [s log].
  destruct (advanceTo_ticking s0 t0 tEnd s log Hrun) as [(_ & j & Hj & Hb & Hin) Hlt].
  destruct (advanceTo h tEnd s) as [s1 ws1]. simpl in *.
  specialize (Hlt j Hb). apply (Hin k). lia.
Qed.

(** *** The debounce of the activity signals *)


Lemma heartbeat_not_lastActivity s s0 :
  sessionId s = sessionId s0 -> heartbeatPath s <> lastActivityPath s0.
Proof.
  intros Hid. unfold heartbeatPath, lastActivityPath. rewrite Hid. intros Heq.
  apply app_inv_head in Heq. apply app_inv_head in Heq. vm_compute in Heq. discriminate.
Qed.














End TrackerFacts.

(** *** On a concrete page *)

Section TrackerCases.

Import Tracker Samples.

(** C3, as stated, fails: after [endSession] a second [endSession] issues
    its three remote writes again, and [trackPageView] and
    [trackToolInteraction] still issue theirs. *)
Lemma end_twice_writes_again :
  let ended := fst (run homePage endedEarly started) in
  List.map w_path (snd (dispatch homePage (loaded + 6000) CallEndSession ended))
  = [ sessionPath ended; activeSessionPath ended; lit "stats/session_durations/0-10s" ] /\
  length (snd (dispatch homePage (loaded + 7000) CallTrackPageView ended)) = 3%nat /\
  length (snd (dispatch homePage (loaded + 8000)
                 (CallTrackToolInteraction (lit "t1") (lit "click") []) ended)) = 3%nat.
Proof. vm_compute. repeat split; reflexivity. Qed.

Lemma heartbeat_every_tick_witness :
  1 <= 3 /\ loaded + 30000 * 3 <= loaded + 100000 /\
  In {| w_time := loaded + 30000 * 3; w_path := heartbeatPath (fst started);
        w_op := SetValue (VNum (loaded + 30000 * 3)) |}
     (snd (runUntil homePage inputThenEnd (loaded + 100000) started)).
Proof.
  assert (H1 : 1 <= 3) by lia.
  assert (H2 : loaded + 30000 * 3 <= loaded + 100000) by lia.
  split; [exact H1|]. split; [exact H2|].
  exact (heartbeat_every_tick homePage desktop inputThenEnd (loaded + 100000) 3 H1 H2).
Defined.

(** C4, as stated, fails: the session is ended 5 s after the page is
    loaded, and heartbeat writes are still issued 30 s, 60 s and 90 s after
    it is loaded. *)
Lemma heartbeat_after_end :
  List.map (fun w => w_time w - loaded)
    (heartbeatWrites (fst started)
       (snd (runUntil homePage endedEarly (loaded + 100000) started)))
  = [30000; 60000; 90000].
Proof. vm_compute. reflexivity. Qed.


(** Three signals within a second are followed by one write, of the time
    of the last of them; the signal at 4 s gets its own. *)
Example burst_coalesced :
  List.map (fun w => (w_time w - loaded, w_op w))
    (lastActivityWrites (fst started)
       (snd (runUntil homePage burst (loaded + 10000) (fst started, []))))
  = [(2900, SetValue (VNum (loaded + 1900))); (5000, SetValue (VNum (loaded + 4000)))].
Proof. vm_compute. reflexivity. Qed.

(** A later page load finds the stored session id, and its [startSession]
    sets the same session record, with the status active, again. *)
Example reload_sets_active_again :
  let ended := fst (run homePage endedEarly started) in
  let reloaded := Tracker.init homePage desktopLater in
  sessionPath (fst reloaded) = sessionPath ended /\
  List.map (statusWritten ended) (firstn 1 (snd reloaded)) = [[VStr (lit "active")]].
Proof. vm_compute. split; reflexivity. Qed.

End TrackerCases.

(** * Further properties *)

(** ** The hash and the ids *)

Section IdFacts.

Import Fingerprint Readings Samples Cases.

Lemma toInt32_mod x : toInt32 x mod 2 ^ 32 = x mod 2 ^ 32.
Proof.
  unfold toInt32. rewrite Zminus_mod_idemp_l. f_equal. lia.
Qed.

Lemma toInt32_congr x y : x mod 2 ^ 32 = y mod 2 ^ 32 -> toInt32 x = toInt32 y.
Proof.
  intros H. unfold toInt32. f_equal.
  rewrite (Z.add_mod x), (Z.add_mod y), H by lia. reflexivity.
Qed.

(** One turn of the loop multiplies by 31 and adds the code unit, modulo 2^32. *)
Lemma hashStep_polynomial hash char : hashStep hash char = toInt32 (31 * hash + char).
Proof.
  unfold hashStep. rewrite band_diag. apply toInt32_congr.
  unfold shl. rewrite Z.shiftl_mul_pow2 by lia.
  rewrite <- Zplus_mod_idemp_l, <- Zminus_mod_idemp_l, toInt32_mod.
  rewrite <- Zmult_mod_idemp_l, toInt32_mod, Zmult_mod_idemp_l.
  rewrite Zminus_mod_idemp_l, Zplus_mod_idemp_l. f_equal. lia.
Qed.

Lemma step_wrapped p c : toInt32 (31 * toInt32 p + c) = toInt32 (31 * p + c).
Proof.
  apply toInt32_congr.
  rewrite <- (Zplus_mod_idemp_l (31 * toInt32 p)), <- Zmult_mod_idemp_r, toInt32_mod.
  rewrite Zmult_mod_idemp_r, Zplus_mod_idemp_l. reflexivity.
Qed.

Lemma fold_left_cons {A B : Type} (f : A -> B -> A) (x : B) (l : list B) (a : A) :
  fold_left f (x :: l) a = fold_left f l (f a x).
Proof. reflexivity. Qed.

Lemma hash_fold s : forall p,
  fold_left hashStep s (toInt32 p) = toInt32 (fold_left (fun q c => 31 * q + c) s p).
Proof.
  induction s as [|c s IH]; intros p; [reflexivity|].
  rewrite !fold_left_cons, hashStep_polynomial, step_wrapped. apply IH.
Qed.

(** X1. The loop of [getBrowserFingerprint] computes the polynomial in 31
    of the code units of its string, reduced to a signed 32-bit integer: the
    wrap-around at every turn loses nothing against one wrap-around at the
    end. *)
Theorem hash_is_polynomial (s : jsstring) : hashString s = toInt32 (polynomial s).
Proof. unfold hashString, polynomial. apply (hash_fold s 0). Qed.

Lemma digitsRadix_length_le fuel : forall n acc (k : nat),
  0 <= n < 36 ^ Z.of_nat (S k) ->
  (length (digitsRadix 36 fuel n acc) <= S k + length acc)%nat.
Proof.
  induction fuel as [|fuel IH]; intros n acc k Hn; simpl; [lia|].
  destruct (Z.eqb_spec (n / 36) 0) as [Hq|Hq]; [simpl; lia|].
  destruct k as [|k].
  { exfalso. apply Hq. apply Z.div_small. simpl in Hn. lia. }
  assert (Hdiv : 0 <= n / 36 < 36 ^ Z.of_nat (S k)).
  { split; [apply Z.div_pos; lia|].
    apply Z.div_lt_upper_bound; [lia|].
    rewrite (Nat2Z.inj_succ (S k)), Z.pow_succ_r in Hn by lia. lia. }
  specialize (IH (n / 36) (digitChar (n mod 36) :: acc) k Hdiv). simpl in IH. lia.
Qed.

Lemma digitsRadix_length_ge fuel n acc :
  (length acc <= length (digitsRadix 36 fuel n acc))%nat /\
  (fuel <> 0%nat -> S (length acc) <= length (digitsRadix 36 fuel n acc))%nat.
Proof.
  revert n acc. induction fuel as [|fuel IH]; intros n acc; simpl; [lia|].
  destruct (n / 36 =? 0); [simpl; lia|].
  destruct (IH (n / 36) (digitChar (n mod 36) :: acc)) as [H _]. simpl in H. lia.
Qed.

(** X2. The fingerprint has from one to six characters, so the
    pseudo-user-id, [user_] followed by it, has from six to eleven. *)
Theorem fingerprint_length (b : Browser) :
  (1 <= length (getBrowserFingerprint b) <= 6)%nat /\
  (6 <= length (userIdOf b) <= 11)%nat.
Proof.
  assert (H : (1 <= length (getBrowserFingerprint b) <= 6)%nat).
  { unfold getBrowserFingerprint, toString36, toStringRadix.
    set (hash := hashString _).
    pose proof (hashString_range (stringifyObject (fingerprint b))) as Hr. fold hash in Hr.
    destruct (Z.ltb_spec (Z.abs hash) 0) as [Hneg|_]; [lia|]. split.
    - destruct (digitsRadix_length_ge (S (Z.to_nat (Z.log2 (Z.abs hash)))) (Z.abs hash) [])
        as [_ Hge]. simpl length in Hge. apply Hge. discriminate.
    - pose proof (digitsRadix_length_le (S (Z.to_nat (Z.log2 (Z.abs hash)))) (Z.abs hash) [] 5)
        as Hle. simpl length in Hle. rewrite Nat.add_0_r in Hle. apply Hle.
      change (36 ^ Z.of_nat 6) with 2176782336. lia. }
  split; [exact H|]. unfold userIdOf. rewrite length_app.
  change (length (lit "user_")) with 5%nat. lia.
Qed.

Lemma freshSessionId_not_empty b : exists c rest, freshSessionId b = c :: rest.
Proof. unfold freshSessionId. eexists. eexists. reflexivity. Qed.

(** X3. Once [generateSessionId] has run in a browser, every later call
    there returns the same session id and leaves the storage as it is,
    whatever the clock and the random source have become. *)
Theorem session_id_reused (b later : Browser) :
  storedSessionId later = storedSessionId (snd (generateSessionId b)) ->
  generateSessionId later = (fst (generateSessionId b), later).
Proof.
  unfold generateSessionId at 1 2 3.
  destruct (storedSessionId b) as [[|c sid]|] eqn:Hb; simpl.
  - destruct (freshSessionId_not_empty b) as (c & rest & Hf). rewrite Hf.
    intros Hl. unfold generateSessionId. rewrite Hl. reflexivity.
  - rewrite Hb. intros Hl. unfold generateSessionId. rewrite Hl. reflexivity.
  - destruct (freshSessionId_not_empty b) as (c & rest & Hf). rewrite Hf.
    intros Hl. unfold generateSessionId. rewrite Hl. reflexivity.
Qed.

Lemma session_id_reused_witness :
  storedSessionId returning = storedSessionId (snd (generateSessionId desktop)) /\
  fst (generateSessionId returning) = lit "session_1700000000000_k3j9x0q2a".
Proof.
  assert (H : storedSessionId returning = storedSessionId (snd (generateSessionId desktop)))
    by reflexivity.
  split; [exact H|].
  rewrite (session_id_reused desktop returning H). vm_compute. reflexivity.
Defined.

End IdFacts.

(** ** User-agent sniffing *)

Section AgentFacts.

Import Agent Cases.

Ltac by_tests :=
  repeat match goal with
         | |- context [includes ?ua ?sub] => destruct (includes ua sub)
         end;
  simpl; intuition (try discriminate; try reflexivity).

(** X4. [detectBrowser] tests for Chrome first, so a user agent that
    names Chrome and not Edg is Chrome whatever else it names; Opera is
    reported exactly for an agent that names Opera or OPR and none of Chrome,
    Firefox, Safari and Edg, and Safari exactly for one that names Safari and
    neither Chrome nor Firefox.  Today's Opera names Chrome and is counted as
    Chrome; only the old Opera is counted as Opera. *)
Theorem browser_shadowing (ua : jsstring) :
  (includes ua (lit "Chrome") = true /\ includes ua (lit "Edg") = false ->
   detectBrowser ua = "Chrome"%string) /\
  (detectBrowser ua = "Opera"%string <->
   includes ua (lit "Opera") || includes ua (lit "OPR") = true /\
   includes ua (lit "Chrome") = false /\ includes ua (lit "Firefox") = false /\
   includes ua (lit "Safari") = false /\ includes ua (lit "Edg") = false) /\
  (detectBrowser ua = "Safari"%string <->
   includes ua (lit "Safari") = true /\
   includes ua (lit "Chrome") = false /\ includes ua (lit "Firefox") = false) /\
  detectBrowser operaDesktop = "Chrome"%string /\
  detectBrowser operaPresto = "Opera"%string.
Proof.
  split; [|split; [|split; [|split; vm_compute; reflexivity]]];
    unfold detectBrowser; by_tests.
Qed.

(** X5. [detectOS] tests for Windows, Mac and Linux before Android and
    iOS: Android is reported exactly for a user agent that names Android and
    none of Windows, Mac and Linux, and iOS exactly for one that names iOS,
    iPhone or iPad and none of Windows, Mac, Linux and Android.  The agents
    of Android browsers name Linux and those of the iPhone name Mac OS X, so
    they are counted as Linux and as macOS. *)
Theorem os_shadowing (ua : jsstring) :
  (detectOS ua = "Android"%string <->
   includes ua (lit "Android") = true /\ includes ua (lit "Windows") = false /\
   includes ua (lit "Mac") = false /\ includes ua (lit "Linux") = false) /\
  (detectOS ua = "iOS"%string <->
   includes ua (lit "iOS") || includes ua (lit "iPhone") || includes ua (lit "iPad") = true /\
   includes ua (lit "Windows") = false /\ includes ua (lit "Mac") = false /\
   includes ua (lit "Linux") = false /\ includes ua (lit "Android") = false) /\
  detectOS androidChrome = "Linux"%string /\
  detectOS iPhoneSafari = "macOS"%string /\
  detectOS androidPlain = "Android"%string.
Proof.
  split; [|split; [|repeat split; vm_compute; reflexivity]];
    unfold detectOS; by_tests.
Qed.

End AgentFacts.

(** ** Guarded Firestore operations *)

Section FirestoreFacts.

Import Firestore.




End FirestoreFacts.

(** ** More on the session tracker *)

Section TrackerMore.

Import Tracker Readings Samples.

Variable h : Host.

Ltac methods :=
  unfold trackEvent, updateLastActivity, endSession, trackToolInteraction,
    trackPageView, startSession, activityTick, heartbeatTick;
  repeat match goal with
         | |- context [if ?b then _ else _] => destruct b
         end;
  simpl; try reflexivity.

(** *** The identity of the session *)

Lemma dispatch_identity t ev s :
  userId (fst (dispatch h t ev s)) = userId s /\
  sessionStart (fst (dispatch h t ev s)) = sessionStart s.
Proof. destruct ev as [|[|]| | | | |]; simpl; split; methods. Qed.

Lemma advance_identity fuel t : forall s,
  userId (fst (advance h fuel t s)) = userId s /\
  sessionStart (fst (advance h fuel t s)) = sessionStart s.
Proof.
  induction fuel as [|fuel IH]; intros s; simpl; [split; reflexivity|].
  destruct (nextTimer s) as [[d k]|]; [|split; reflexivity].
  destruct (d <=? t); [|split; reflexivity].
  assert (Hf : userId (fst (fire h d k s)) = userId s /\
               sessionStart (fst (fire h d k s)) = sessionStart s)
    by (destruct k; split; reflexivity).
  destruct (fire h d k s) as [s1 ws1]. specialize (IH s1).
  destruct (advance h fuel t s1) as [s2 ws2]. simpl in *.
  destruct IH as [-> ->]. exact Hf.
Qed.

Lemma step_identity acc e :
  userId (fst (step h acc e)) = userId (fst acc) /\
  sessionStart (fst (step h acc e)) = sessionStart (fst acc).
Proof.
  destruct acc as [s log], e as [t ev]. unfold step.
  pose proof (advance_identity (dueCount t s) t s) as Ha. fold (advanceTo h t s) in Ha.
  destruct (advanceTo h t s) as [s1 ws1].
  pose proof (dispatch_identity t ev s1) as Hd.
  destruct (dispatch h t ev s1) as [s2 ws2]. simpl in *.
  destruct Hd as [-> ->]. exact Ha.
Qed.

Lemma run_identity trace : forall acc,
  userId (fst (run h trace acc)) = userId (fst acc) /\
  sessionStart (fst (run h trace acc)) = sessionStart (fst acc).
Proof.
  induction trace as [|e trace IH]; intros acc; [split; reflexivity|].
  unfold run in *. simpl. destruct (IH (step h acc e)) as [-> ->]. apply step_identity.
Qed.

(** X7. Whatever happens on the page, and however long it stays open, the
    tracker keeps the session id, the pseudo-user-id and the start time that
    [init] gave it: the stored or fresh session id, [user_] and the
    fingerprint, and the time of the page load. *)
Theorem session_identity_fixed (b : Fingerprint.Browser)
    (trace : list (Z * Event)) (tEnd : Z) :
  let s := fst (runUntil h trace tEnd (Tracker.init h b)) in
  sessionId s = fst (Fingerprint.generateSessionId b) /\
  userId s = Fingerprint.userIdOf b /\
  sessionStart s = Fingerprint.dateNow b.
Proof.
  intros s. unfold s, runUntil.
  pose proof (run_sessionId h trace (Tracker.init h b)) as Hid.
  pose proof (run_identity trace (Tracker.init h b)) as [Hu Hs].
  destruct (run h trace (Tracker.init h b)) as [s1 log].
  pose proof (advance_sessionId h (dueCount tEnd s1) tEnd s1) as Hid2.
  pose proof (advance_identity (dueCount tEnd s1) tEnd s1) as [Hu2 Hs2].
  fold (advanceTo h tEnd s1) in Hid2, Hu2, Hs2.
  destruct (advanceTo h tEnd s1) as [s2 ws2]. simpl in *.
  rewrite Hid2, Hu2, Hs2, Hid, Hu, Hs. repeat split.
Qed.

(** *** The debounce timer does fire *)

Lemma advance_activity_fires fuel t : forall s a,
  activityTimeout s = Some a -> a <= t -> (dueCount t s <= fuel)%nat ->
  In {| w_time := a; w_path := lastActivityPath s; w_op := SetValue (VNum (lastActivity s)) |}
     (snd (advance h fuel t s)).
Proof.
  induction fuel as [|fuel IH]; intros s a Ha Hle Hfuel.
  - exfalso. unfold dueCount in Hfuel. rewrite Ha in Hfuel.
    destruct (Z.leb_spec a t); [|lia]. simpl in Hfuel. lia.
  - simpl. destruct (nextTimer s) as [[d k]|] eqn:Hn.
    2:{ unfold nextTimer in Hn. rewrite Ha in Hn.
        destruct (heartbeatInterval s) as [b|]; [destruct (a <? b)|]; discriminate. }
    pose proof (nextTimer_cases s d k Hn) as Hc.
    destruct k; destruct Hc as [Hk Hother].
    + assert (d = a) by congruence. subst d.
      destruct (Z.leb_spec a t); [|lia].
      destruct (advance h fuel t (fst (fire h a ActivityTimer s))) as [s2 ws2] eqn:Hadv.
      simpl in *. rewrite Hadv. simpl. left. reflexivity.
    + specialize (Hother a Ha).
      destruct (Z.leb_spec d t); [|lia].
      pose proof (dueCount_fire h t s d HeartbeatTimer Hn ltac:(lia)) as Hdue.
      specialize (IH (fst (fire h d HeartbeatTimer s)) a Ha Hle ltac:(lia)).
      simpl in IH |- *.
      destruct (advance h fuel t _) as [s2 ws2]. simpl in *. right. exact IH.
Qed.

(** X8. An input signal that is the last event before a second of quiet
    does reach the store: if the signal at [v] is followed by no event and
    the page stays open until [v] + 1000, the last-activity time stamp [v] is
    written at [v] + 1000, whatever happened before the signal. *)
Theorem quiet_signal_written (trace : list (Z * Event)) (acc : State * list Write)
    (v tEnd : Z) :
  v + 1000 <= tEnd ->
  In (debouncedWrite (fst acc) v)
     (snd (runUntil h (trace ++ [(v, Input)]) tEnd acc)).
Proof.
  intros Hle. unfold runUntil. rewrite run_app.
  pose proof (run_sessionId h trace acc) as Hid.
  destruct (run h trace acc) as [s log]. simpl in Hid.
  unfold run. simpl fold_left. unfold step.
  pose proof (advance_sessionId h (dueCount v s) v s) as Hid1.
  fold (advanceTo h v s) in Hid1. destruct (advanceTo h v s) as [s1 ws1].
  cbn [dispatch]. simpl in Hid1.
  set (s2 := setActivityTimeout (Some (v + 1000)) (setLastActivity v s1)).
  pose proof (advance_activity_fires (dueCount tEnd s2) tEnd s2 (v + 1000)
                eq_refl Hle (le_n _)) as Hfire.
  fold (advanceTo h tEnd s2) in Hfire. destruct (advanceTo h tEnd s2) as [s3 ws3].
  simpl in Hfire |- *. apply in_or_app. right.
  unfold debouncedWrite, lastActivityPath in *. simpl in Hfire.
  rewrite <- Hid, <- Hid1. exact Hfire.
Qed.

(** *** The heartbeat writes are the ticks *)

Lemma numbers_succ n : numbers (S n) = numbers n ++ [Z.of_nat (S n)].
Proof. unfold numbers. rewrite seq_S, map_app. reflexivity. Qed.

Lemma heartbeatWrites_app s0 log ws :
  heartbeatWrites s0 (log ++ ws) = heartbeatWrites s0 log ++ heartbeatWrites s0 ws.
Proof. apply filter_app. Qed.

Lemma heartbeatWrites_none s0 ws :
  (forall w, In w ws -> w_path w <> heartbeatPath s0) -> heartbeatWrites s0 ws = [].
Proof.
  unfold heartbeatWrites. induction ws as [|w ws IH]; intros Hoff; simpl; [reflexivity|].
  rewrite bool_decide_false by (apply Hoff; left; reflexivity).
  apply IH. intros w' Hw'. apply Hoff. right. exact Hw'.
Qed.

Lemma sessionPath_not_heartbeat s s0 :
  sessionId s = sessionId s0 -> sessionPath s <> heartbeatPath s0.
Proof.
  intros Hid. unfold sessionPath, heartbeatPath. rewrite Hid. intros Heq.
  apply app_inv_head in Heq.
  rewrite <- (app_nil_r (sessionId s0)) in Heq at 1.
  apply app_inv_head in Heq. vm_compute in Heq. discriminate.
Qed.

Ltac off_heartbeat :=
  first
    [ apply sessionPath_not_heartbeat; simpl; congruence
    | apply not_eq_sym, heartbeat_not_lastActivity; simpl; congruence
    | let Heq := fresh "Heq" in intros Heq; vm_compute in Heq; discriminate ].

Ltac each_write Hin :=
  simpl in Hin;
  repeat match type of Hin with
         | _ \/ _ => destruct Hin as [Hin|Hin]
         | False => destruct Hin
         end;
  try subst; cbn [w_path].

Lemma startSession_off_heartbeat t s s0 w :
  sessionId s = sessionId s0 -> In w (snd (startSession h t s)) -> w_path w <> heartbeatPath s0.
Proof.
  intros Hid Hin. unfold startSession in Hin. cbn [snd] in Hin.
  apply attempt_incl in Hin. each_write Hin; off_heartbeat.
Qed.

Lemma trackPageView_off_heartbeat t s s0 w :
  sessionId s = sessionId s0 -> In w (snd (trackPageView h t s)) -> w_path w <> heartbeatPath s0.
Proof.
  intros Hid Hin. unfold trackPageView in Hin. cbn [snd] in Hin.
  apply attempt_incl in Hin. each_write Hin; off_heartbeat.
Qed.

Lemma endSession_off_heartbeat t s s0 w :
  sessionId s = sessionId s0 -> In w (snd (endSession h t s)) -> w_path w <> heartbeatPath s0.
Proof.
  intros Hid Hin. unfold endSession in Hin.
  destruct (allAccepted h _); cbn [snd] in Hin; [|apply attempt_incl in Hin];
    each_write Hin; off_heartbeat.
Qed.

Lemma trackToolInteraction_off_heartbeat t toolId action metadata s s0 w :
  sessionId s = sessionId s0 ->
  In w (snd (trackToolInteraction h t toolId action metadata s)) ->
  w_path w <> heartbeatPath s0.
Proof.
  intros Hid Hin. unfold trackToolInteraction in Hin.
  destruct (allAccepted h _); cbn [snd] in Hin; [|apply attempt_incl in Hin];
    each_write Hin; off_heartbeat.
Qed.

Lemma trackEvent_off_heartbeat t eventName data s s0 w :
  In w (snd (trackEvent h t eventName data s)) -> w_path w <> heartbeatPath s0.
Proof. intros Hin. unfold trackEvent in Hin. cbn [snd] in Hin. each_write Hin; off_heartbeat. Qed.

Lemma updateLastActivity_off_heartbeat t s s0 w :
  sessionId s = sessionId s0 ->
  In w (snd (updateLastActivity h t s)) -> w_path w <> heartbeatPath s0.
Proof.
  intros Hid Hin. unfold updateLastActivity in Hin. cbn [snd] in Hin.
  each_write Hin; off_heartbeat.
Qed.

Lemma dispatch_off_heartbeat t ev s s0 w :
  sessionId s = sessionId s0 -> In w (snd (dispatch h t ev s)) -> w_path w <> heartbeatPath s0.
Proof.
  intros Hid Hin. destruct ev as [|[|]| | | | |]; cbn [dispatch] in Hin.
  - destruct Hin.
  - eapply trackEvent_off_heartbeat, Hin.
  - destruct (trackEvent h t (lit "page_visible") [] s) as [s1 ws1] eqn:He.
    assert (Hs1 : s1 = s) by (unfold trackEvent in He; congruence). subst s1.
    destruct (updateLastActivity h t (setLastActivity t s)) as [s2 ws2] eqn:Hu.
    cbn [snd] in Hin. apply in_app_or in Hin as [Hin|Hin].
    + apply (trackEvent_off_heartbeat t (lit "page_visible") [] s). rewrite He. exact Hin.
    + apply (updateLastActivity_off_heartbeat t (setLastActivity t s)); [exact Hid|].
      rewrite Hu. exact Hin.
  - eapply endSession_off_heartbeat; eassumption.
  - eapply trackPageView_off_heartbeat; eassumption.
  - eapply trackToolInteraction_off_heartbeat; eassumption.
  - eapply endSession_off_heartbeat; eassumption.
  - eapply trackEvent_off_heartbeat, Hin.
Qed.

Lemma fire_beating s0 t0 bound s log d k :
  beating s0 t0 bound (s, log) ->
  nextTimer s = Some (d, k) -> d <= bound ->
  beating s0 t0 bound (fst (fire h d k s), log ++ snd (fire h d k s)).
Proof.
  intros (Hid & n & Hb & Hws & Hbound) Hn Hd. simpl in *.
  apply nextTimer_cases in Hn. destruct k; destruct Hn as [Hk _].
  - split; [exact Hid|]. exists n. cbn [fire fst snd]. unfold activityTick.
    split; [exact Hb|]. split; [|exact Hbound].
    rewrite heartbeatWrites_app, (heartbeatWrites_none s0 (snd (updateLastActivity h d _))),
      app_nil_r; [exact Hws|].
    intros w Hw. apply (updateLastActivity_off_heartbeat d (setActivityTimeout None s));
      [exact Hid | exact Hw].
  - assert (Hd' : d = t0 + 30000 * Z.of_nat (S n)) by congruence.
    split; [exact Hid|]. exists (S n). cbn [fire fst snd]. unfold heartbeatTick. cbn [fst snd].
    split; [simpl; f_equal; lia|]. split; [|intros _; lia].
    rewrite heartbeatWrites_app, Hws, numbers_succ, map_app. f_equal.
    unfold heartbeatWrites. simpl.
    rewrite bool_decide_true by (unfold heartbeatPath; rewrite Hid; reflexivity).
    rewrite <- Hd'. unfold heartbeatWrite, heartbeatPath. rewrite Hid. reflexivity.
Qed.

Lemma advance_beating s0 t0 bound fuel t : forall s log,
  t <= bound -> beating s0 t0 bound (s, log) ->
  beating s0 t0 bound (fst (advance h fuel t s), log ++ snd (advance h fuel t s)).
Proof.
  induction fuel as [|fuel IH]; intros s log Ht Hinv; simpl.
  - rewrite app_nil_r. exact Hinv.
  - destruct (nextTimer s) as [[d k]|] eqn:Hn; [|simpl; rewrite app_nil_r; exact Hinv].
    destruct (Z.leb_spec d t) as [Hd|Hd]; [|simpl; rewrite app_nil_r; exact Hinv].
    pose proof (fire_beating s0 t0 bound s log d k Hinv Hn ltac:(lia)) as Hf.
    destruct (fire h d k s) as [s1 ws1]. simpl in Hf.
    specialize (IH s1 (log ++ ws1) Ht Hf).
    destruct (advance h fuel t s1) as [s2 ws2]. simpl in *.
    rewrite app_assoc. exact IH.
Qed.

Lemma dispatch_beating s0 t0 bound t ev s log :
  beating s0 t0 bound (s, log) ->
  beating s0 t0 bound (fst (dispatch h t ev s), log ++ snd (dispatch h t ev s)).
Proof.
  intros (Hid & n & Hb & Hws & Hbound). simpl in *.
  split; [simpl; rewrite dispatch_sessionId; exact Hid|]. exists n. simpl.
  split; [rewrite dispatch_heartbeatInterval; exact Hb|]. split; [|exact Hbound].
  rewrite heartbeatWrites_app, (heartbeatWrites_none s0 (snd (dispatch h t ev s))), app_nil_r;
    [exact Hws|].
  intros w Hw. apply (dispatch_off_heartbeat t ev s s0 w Hid Hw).
Qed.

Lemma step_beating s0 t0 bound acc e :
  fst e <= bound -> beating s0 t0 bound acc -> beating s0 t0 bound (step h acc e).
Proof.
  destruct acc as [s log], e as [t ev]. simpl. intros Ht Hinv. unfold step.
  pose proof (advance_beating s0 t0 bound (dueCount t s) t s log Ht Hinv) as Ha.
  fold (advanceTo h t s) in Ha. destruct (advanceTo h t s) as [s1 ws1]. simpl in Ha.
  pose proof (dispatch_beating s0 t0 bound t ev s1 (log ++ ws1) Ha) as Hd.
  destruct (dispatch h t ev s1) as [s2 ws2]. simpl in Hd.
  rewrite <- app_assoc in Hd. exact Hd.
Qed.

Lemma run_beating s0 t0 bound trace : forall acc,
  Forall (fun e => fst e <= bound) trace ->
  beating s0 t0 bound acc -> beating s0 t0 bound (run h trace acc).
Proof.
  induction trace as [|e trace IH]; intros acc Hall Hinv; [exact Hinv|].
  inversion Hall as [|? ? He Hrest]; subst.
  unfold run in *. simpl. apply IH; [exact Hrest|]. apply step_beating; assumption.
Qed.

Lemma init_beating b bound :
  beating (fst (Tracker.init h b)) (Fingerprint.dateNow b) bound (Tracker.init h b).
Proof.
  split; [reflexivity|]. exists 0%nat. split; [simpl; f_equal; lia|].
  split; [|intros Hn; contradiction].
  unfold Tracker.init.
  set (sa := {| sessionId := _; userId := _; sessionStart := _; pageViews := 0;
                lastActivity := _; activityTimeout := None; heartbeatInterval := None;
                localStorage := [] |}).
  pose proof (startSession_off_heartbeat (Fingerprint.dateNow b) sa sa) as H1.
  destruct (startSession h (Fingerprint.dateNow b) sa) as [s1 ws1] eqn:Hs.
  assert (Hs1 : s1 = sa) by (unfold startSession in Hs; congruence). subst s1.
  pose proof (trackPageView_off_heartbeat (Fingerprint.dateNow b) sa sa) as H2.
  destruct (trackPageView h (Fingerprint.dateNow b) sa) as [s2 ws2] eqn:Ht.
  simpl. apply heartbeatWrites_none. intros w Hw.
  assert (Hpath : heartbeatPath (setHeartbeatInterval (Some (Fingerprint.dateNow b + 30000)) s2)
                  = heartbeatPath sa).
  { unfold heartbeatPath. simpl. unfold trackPageView in Ht.
    injection Ht as <- _. reflexivity. }
  rewrite Hpath. apply in_app_or in Hw as [Hw|Hw]; [apply H1 | apply H2]; auto.
Qed.

(** X9. By the time [tEnd], the heartbeat writes issued since [init] are
    exactly those of the ticks 30 s, 60 s, ... after the page load that are
    not later than [tEnd], in this order and each once; each writes its own
    time.  No handler writes at the heartbeat path. *)
Theorem heartbeats_are_the_ticks (b : Fingerprint.Browser)
    (trace : list (Z * Event)) (tEnd : Z) :
  Forall (fun e => fst e <= tEnd) trace ->
  let t0 := Fingerprint.dateNow b in
  let s0 := fst (Tracker.init h b) in
  heartbeatWrites s0 (snd (runUntil h trace tEnd (Tracker.init h b)))
  = List.map (fun k => {| w_time := t0 + 30000 * k; w_path := heartbeatPath s0;
                          w_op := SetValue (VNum (t0 + 30000 * k)) |})
      (numbers (Z.to_nat ((tEnd - t0) / 30000))).
Proof.
  intros Hall t0 s0. unfold runUntil.
  pose proof (run_beating s0 t0 tEnd trace _ Hall (init_beating b tEnd)) as Hrun.
  destruct (run h trace (Tracker.init h b)) as [s log].
  pose proof (advance_beating s0 t0 tEnd (dueCount tEnd s) tEnd s log (Z.le_refl _) Hrun)
    as (_ & n & Hb & Hws & Hbound).
  pose proof (advance_settles h tEnd (dueCount tEnd s) s (le_n _)) as Hsettled.
  fold (advanceTo h tEnd s) in Hb, Hws, Hsettled.
  destruct (advanceTo h tEnd s) as [s1 ws1]. simpl in *.
  pose proof (dueCount_zero tEnd s1 _ Hb Hsettled) as Hnext.
  assert (Hn : Z.to_nat ((tEnd - t0) / 30000) = n).
  { destruct (Nat.eq_dec n 0) as [->|Hpos].
    - assert ((tEnd - t0) / 30000 < 1) by (apply Z.div_lt_upper_bound; lia). lia.
    - specialize (Hbound Hpos).
      assert (Z.of_nat n <= (tEnd - t0) / 30000) by (apply Z.div_le_lower_bound; lia).
      assert ((tEnd - t0) / 30000 < Z.of_nat n + 1) by (apply Z.div_lt_upper_bound; lia).
      lia. }
  rewrite Hn. exact Hws.
Qed.

(** *** The page-view records *)























End TrackerMore.

(** *** On a concrete page *)

Section TrackerMoreCases.

Import Tracker Readings Samples.

Lemma quiet_signal_written_witness :
  loaded + 4000 + 1000 <= loaded + 10000 /\
  In (debouncedWrite (fst started) (loaded + 4000))
     (snd (runUntil homePage
             ([(loaded + 1200, Input); (loaded + 1500, Input); (loaded + 1900, Input)]
                ++ [(loaded + 4000, Input)])
             (loaded + 10000) started)).
Proof.
  assert (H : loaded + 4000 + 1000 <= loaded + 10000) by lia.
  split; [exact H|].
  exact (quiet_signal_written homePage
           [(loaded + 1200, Input); (loaded + 1500, Input); (loaded + 1900, Input)]
           started (loaded + 4000) (loaded + 10000) H).
Defined.

Lemma heartbeats_are_the_ticks_witness :
  Forall (fun e => fst e <= loaded + 100000) inputThenEnd /\
  length (heartbeatWrites (fst (Tracker.init homePage desktop))
            (snd (runUntil homePage inputThenEnd (loaded + 100000)
                    (Tracker.init homePage desktop)))) = 3%nat.
Proof.
  assert (H : Forall (fun e => fst e <= loaded + 100000) inputThenEnd).
  { repeat constructor; vm_compute; discriminate. }
  split; [exact H|].
  rewrite (heartbeats_are_the_ticks homePage desktop inputThenEnd (loaded + 100000) H).
  vm_compute. reflexivity.
Defined.

End TrackerMoreCases.

(** ** More on the tool viewer *)

Section ViewerMore.

Import Viewer Readings Samples.



(** X12. Without a tool id the viewer shows the error panel with its
    message, and neither creates the iframe nor asks the store.  With an id,
    a load that fails logs the message of the error, but the panel
    [showError] puts in the page does not stay: [showLoading(false)], in the
    [finally] block, replaces it by the iframe. *)
Theorem error_panel_replaced (isoDate : Z -> jsstring) (id : jsval) (f : Fetch) (t : Z)
    (hasTitle : bool) (pageTitle m : jsstring) :
  let r := Viewer.init isoDate id f t (newViewer true hasTitle pageTitle) in
  (truthy id = false ->
   viewerContent (fst r) = Some (ErrorPanel (lit "No tool ID specified")) /\
   iframe (fst r) = None /\ snd r = None /\ console (fst r) = []) /\
  (truthy id = true -> snd r = Some m ->
   viewerContent (fst r) = Some IframeChild /\ console (fst r) = [m]).
Proof.
  intros r. unfold r, Viewer.init. split.
  - intros ->. cbn [negb]. unfold showError, newViewer. cbn -[lit].
    repeat split.
  - intros ->. cbn [negb]. unfold loadTool, showLoading, setupViewer, newViewer.
    cbn -[lit escapeHtml toolHtml toStr].
    unfold tryLoadTool.
    destruct f as [m'|[td|]]; cbn -[lit escapeHtml toolHtml toStr].
    + intros [= ->]. split; reflexivity.
    + destruct (truthy (enabled td)); cbn -[lit escapeHtml toolHtml toStr];
        [|intros [= <-]; split; reflexivity].
      destruct (isString (lit "hosted") (type td)); cbn -[lit escapeHtml toolHtml toStr];
        [|intros [= <-]; split; reflexivity].
      destruct (truthy (hostedHtml td)); cbn -[lit escapeHtml toolHtml toStr];
        [discriminate | intros [= <-]; split; reflexivity].
    + intros [= <-]. split; reflexivity.
Qed.

Lemma startsWith_cancel p x y :
  Agent.startsWith (p ++ x) (p ++ y) = Agent.startsWith x y.
Proof.
  induction p as [|c p IH]; [reflexivity|].
  cbn [app Agent.startsWith]. rewrite Z.eqb_refl. exact IH.
Qed.

Lemma startsWith_cons c x y :
  Agent.startsWith (c :: x) (c :: y) = Agent.startsWith x y.
Proof. cbn [Agent.startsWith]. rewrite Z.eqb_refl. reflexivity. Qed.

Ltac no_overlap :=
  let i := fresh "i" in let j := fresh "j" in
  let p := fresh "p" in let q := fresh "q" in
  let Hi := fresh "Hi" in let Hj := fresh "Hj" in
  let Hne := fresh "Hne" in let Hsw := fresh "Hsw" in
  intros i j p q Hi Hj Hne Hsw;
  do 6 (try destruct i as [|i]); try discriminate Hi;
  do 6 (try destruct j as [|j]); try discriminate Hj;
  try (exfalso; apply Hne; reflexivity);
  injection Hi as <-; injection Hj as <-;
  rewrite ?startsWith_cons, ?startsWith_cancel in Hsw;
  first [ discriminate Hsw | vm_compute in Hsw; discriminate Hsw ].

(** X13. In the multi-path updates that count a view ([trackToolView]) and
    a click ([ToolsLoader.trackToolClick]) no path is the beginning of
    another one, whatever the tool id, the date key and the session id are:
    no entry of an update overwrites, or lies under, another entry. *)
Theorem update_paths_apart (isoDate : Z -> jsstring) (t : Z) (v : Viewer)
    (b : Fingerprint.Browser) (toolId : jsstring) :
  noOverlap (viewPaths isoDate t v) /\
  noOverlap (List.map fst (fst (Loader.trackToolClick isoDate b toolId))).
Proof.
  split.
  - unfold viewPaths, trackToolView, withView. cbn [viewUpdates].
    rewrite last_last. cbn [List.map fst]. no_overlap.
  - unfold Loader.trackToolClick.
    destruct (Fingerprint.generateSessionId b) as [sid b']. cbn [List.map fst].
    no_overlap.
Qed.

End ViewerMore.

(** ** More on the isolation script *)

Section SandboxMore.

Import Sandbox Readings Samples.








End SandboxMore.

(** ** More on buckets, escaping and failed writes *)

Section MoreFacts.

Import Duration Viewer Tracker Readings Samples.

(** X15. Each duration bucket is a range without gaps: a duration between
    two durations of one bucket is in that bucket too; and the bucket only
    depends on the whole seconds of the duration. *)
Theorem bucket_ranges (d1 d d2 : Z) :
  d1 <= d <= d2 ->
  getDurationBucket d1 = getDurationBucket d2 ->
  getDurationBucket d = getDurationBucket d1 /\
  getDurationBucket d = getDurationBucket (1000 * (d / 1000)).
Proof.
  intros [Hlo Hhi] Heq. split.
  - assert (H1 : d1 / 1000 <= d / 1000) by (apply Z.div_le_mono; lia).
    assert (H2 : d / 1000 <= d2 / 1000) by (apply Z.div_le_mono; lia).
    revert Heq. unfold getDurationBucket.
    generalize dependent (d1 / 1000). generalize dependent (d2 / 1000).
    generalize dependent (d / 1000). clear. intros s s2 Hs2 s1 Hs1.
    repeat match goal with
           | |- context [?a <? ?b] => destruct (Z.ltb_spec a b)
           end; try lia; try reflexivity; intros Heq; discriminate Heq.
  - unfold getDurationBucket. rewrite (Z.mul_comm 1000), Z.div_mul by lia. reflexivity.
Qed.

Lemma bucket_ranges_witness :
  61000 <= 180000 <= 299999 /\
  getDurationBucket 180000 = getDurationBucket 61000.
Proof.
  assert (H : 61000 <= 180000 <= 299999) by lia.
  split; [exact H|].
  exact (proj1 (bucket_ranges 61000 180000 299999 H eq_refl)).
Defined.

Lemma escapeUnit_plain c : plain c = true -> escapeUnit c = [c].
Proof.
  unfold plain, escapeUnit. intros H. apply negb_true_iff in H.
  apply orb_false_iff in H as [H H4]. apply orb_false_iff in H as [H H3].
  apply orb_false_iff in H as [H1 H2]. rewrite H1, H2, H3, H4. reflexivity.
Qed.

Lemma escapeUnit_longer c : plain c = false -> (4 <= length (escapeUnit c))%nat.
Proof.
  unfold plain, escapeUnit. intros H. apply negb_false_iff in H.
  destruct (c =? 38); [vm_compute; lia|].
  destruct (c =? 160); [vm_compute; lia|].
  destruct (c =? 60); [vm_compute; lia|].
  destruct (c =? 62); [vm_compute; lia | discriminate].
Qed.

Lemma serializeText_length s : (length s <= length (serializeText s))%nat.
Proof.
  unfold serializeText. induction s as [|c s IH]; [reflexivity|].
  cbn [flat_map]. rewrite length_app. cbn [length].
  destruct (plain c) eqn:Hc.
  - rewrite (escapeUnit_plain c Hc). simpl. lia.
  - pose proof (escapeUnit_longer c Hc). lia.
Qed.

(** X16. [escapeHtml] returns a string as it is exactly when none of its
    code units is an ampersand, a no-break space or an angle bracket: plain
    names show unchanged, and every other text is changed. *)
Theorem escape_changes_only_markup (s : jsstring) :
  escapeHtml (JStr s) = s <-> forallb plain s = true.
Proof.
  assert (H : serializeText s = s <-> forallb plain s = true).
  { induction s as [|c s IH]; [split; reflexivity|].
    unfold serializeText in *. cbn [flat_map forallb].
    destruct (plain c) eqn:Hc.
    - rewrite (escapeUnit_plain c Hc). cbn [app andb]. rewrite <- IH.
      split; [intros [= E]; exact E | intros ->; reflexivity].
    - cbn [andb]. split; [|discriminate]. intros E. exfalso.
      apply (f_equal (@length Z)) in E. rewrite length_app in E. cbn [length] in E.
      pose proof (escapeUnit_longer c Hc). pose proof (serializeText_length s).
      unfold serializeText in *. lia. }
  unfold escapeHtml. destruct s as [|c s]; [split; reflexivity|]. exact H.
Qed.

Variable h : Host.


End MoreFacts.
